(** * LotsawaHouseData: the EPUB scraper and the JSON-to-folder transform

  A shallow embedding of [scrap.py] (class [LotsawaEPUBScraper]) and of
  [json_to_folder.py], with the properties of their decision logic:
  content-language classification, link collection, the completion
  poller, collision-free placement, the run coordinator's counters and
  the text files written for one JSON record.

  Python values are modelled as follows.
  - [str] is a list of Unicode code points ([N]); a character comparison
    such as ['ༀ' <= ch <= '࿿'] is the comparison of code points.
  - A [pathlib.Path] below the scraper's [output_dir] is the list of its
    parent directories together with its final component.
  - The file system is a finite map from paths to file contents.
  - The browser (Selenium) is an oracle: what it shows and delivers for a
    page is a record the orchestration reads.  So is the operating system:
    the record says which of the calls made for the document it refuses.
  - Functions of Python's Unicode database ([str.isalnum],
    [unicodedata.normalize], [str.lower]) and [urljoin] are parameters. *)

From Stdlib Require Import ZArith NArith Lia Ascii String DecimalString DecimalNat.
From stdpp Require Import base option list gmap strings.

Local Open Scope N_scope.

(** ** Python strings *)

Module PyStr.

(** A Python [str]: its code points, in order. *)
Definition str : Type := list N.

(** An ASCII literal as a [str]. *)
Definition lit (s : string) : str :=
  map N_of_ascii (list_ascii_of_string s).

(** The empty string. *)
Definition empty_str : str := [].

(** ['ༀ' <= ch <= '࿿']: the Tibetan block. *)
Definition tibetan (ch : N) : bool := (0xF00 <=? ch) && (ch <=? 0xFFF).

(** [any(p(ch) for ch in s)]. *)
Definition any {A} (p : A -> bool) (s : list A) : bool := existsb p s.

(** [str.isspace] for one character: the code points that CPython's
    [_PyUnicode_IsWhitespace] accepts. *)
Definition isspace (ch : N) : bool :=
  ((0x09 <=? ch) && (ch <=? 0x0D)) || ((0x1C <=? ch) && (ch <=? 0x20))
  || (ch =? 0x85) || (ch =? 0xA0) || (ch =? 0x1680)
  || ((0x2000 <=? ch) && (ch <=? 0x200A))
  || (ch =? 0x2028) || (ch =? 0x2029) || (ch =? 0x202F)
  || (ch =? 0x205F) || (ch =? 0x3000).

(** [s.lstrip()], [s.rstrip()] and [s.strip()] without argument. *)
Fixpoint lstrip (s : str) : str :=
  match s with
  | ch :: s' => if isspace ch then lstrip s' else s
  | [] => []
  end.

Definition rstrip (s : str) : str := rev (lstrip (rev s)).

Definition strip (s : str) : str := rstrip (lstrip s).

(** [needle in s] for strings: [needle] occurs as a substring. *)
Fixpoint startswith (s needle : str) : bool :=
  match needle, s with
  | [], _ => true
  | c :: needle', d :: s' => (c =? d) && startswith s' needle'
  | _ :: _, [] => false
  end.

Fixpoint contains (needle s : str) : bool :=
  startswith s needle ||
  match s with
  | [] => false
  | _ :: s' => contains needle s'
  end.

(** [str(n)] for a non-negative integer. *)
Definition str_of_nat (n : nat) : str :=
  lit (NilEmpty.string_of_uint (Nat.to_uint n)).

End PyStr.

Import PyStr.

(** ** Library functions the scraper calls

    [str.isalnum], [unicodedata.normalize("NFC", _)] and [str.lower] read
    Python's copy of the Unicode database, and [urljoin] is urllib's; none
    of them is code of this repository.  The scraper is embedded over any
    implementation of them. *)

Class PyLib := {
  isalnum : N -> bool;          (* c.isalnum() for one character *)
  normalize_NFC : str -> str;   (* unicodedata.normalize("NFC", s) *)
  lower : str -> str;           (* s.lower() *)
  urljoin : str -> str -> str   (* urllib.parse.urljoin(base, url) *)
}.

(** ** pathlib *)

Module Pathlib.

(** A path below [output_dir]: the directories under [output_dir] that lead
    to it, and its final component [name].  pathlib gives the path of a file
    a final component that is not empty and holds no separator; for such
    paths [with_name] does not raise. *)
Definition Path : Type := list str * str.

Definition parent (p : Path) : list str := fst p.
Definition name (p : Path) : str := snd p.

(** [dir / n]. *)
Definition joinpath (dir : list str) (n : str) : Path := (dir, n).

(** [s.rfind(c)]; [None] is Python's -1. *)
Fixpoint rfind (c : N) (s : str) : option nat :=
  match s with
  | [] => None
  | d :: s' =>
      match rfind c s' with
      | Some i => Some (S i)
      | None => if d =? c then Some O else None
      end
  end.

(** [PurePath.suffix]: from the last dot of the name, when that dot is
    neither its first nor its last character. *)
Definition suffix (p : Path) : str :=
  match rfind 0x2E (name p) with
  | Some i =>
      if (0 <? i)%nat && (i <? length (name p) - 1)%nat
      then drop i (name p) else []
  | None => []
  end.

(** [PurePath.stem]: the name without its suffix. *)
Definition stem (p : Path) : str :=
  match rfind 0x2E (name p) with
  | Some i =>
      if (0 <? i)%nat && (i <? length (name p) - 1)%nat
      then take i (name p) else name p
  | None => name p
  end.

(** [p.with_name(n)]. *)
Definition with_name (p : Path) (n : str) : Path := (parent p, n).

End Pathlib.

Import Pathlib.

(** ** The scraper: [scrap.py] *)

Module Scrap.

(** *** Content-language classification ([_download_epub_from_text_page],
    the block that sets [extra_language_dir]) *)

(** What the driver reports about the page on display. *)
Record PageState := {
  current_url : str;          (* self.driver.current_url *)
  has_bo_class : bool;        (* bool(find_elements("#maintext p.bo")) *)
  has_en_class : bool;        (* bool(find_elements("#maintext p.en")) *)
  has_en_trans_class : bool;  (* bool(find_elements("#maintext p.en-trans")) *)
  maintext_elms : list str    (* the .text of the elements with id maintext *)
}.

Definition is_tibetan_page (pg : PageState) : bool :=
  contains (lit "/bo/") (current_url pg).

Definition maintext_text (pg : PageState) : str :=
  match maintext_elms pg with
  | e :: _ => e
  | [] => empty_str
  end.

Definition tibetan_script_present (pg : PageState) : bool :=
  any tibetan (maintext_text pg).

(** The value of [extra_language_dir] when the detection block ends
    without an exception. *)
Definition extra_language_dir (pg : PageState) : option str :=
  if negb (is_tibetan_page pg) then
    let has_tibetan_content := has_bo_class pg || tibetan_script_present pg in
    if negb has_tibetan_content then Some (lit "English") else None
  else
    if negb (has_en_class pg) && negb (has_en_trans_class pg)
    then Some (lit "Tibetan") else None.

(** *** Link collection ([_collect_text_links]) *)

(** One [details.accordion] element: the text of its [summary] and the
    [href] attribute of each [div.text-card a.title] anchor in it
    ([None]: the attribute is missing). *)
Record Details := {
  summary_text : str;
  anchors : list (option str)
}.

(** The last five lines of the inner loop: [full_url] is entered on first
    sight, and [subheading] is appended to its list unless it is there. *)
Definition record_link (subheading full_url : str)
    (acc : gmap str (list str) * list str) : gmap str (list str) * list str :=
  let '(url_to_subs, order) := acc in
  let '(url_to_subs, order) :=
    match url_to_subs !! full_url with
    | None => (<[full_url := []]> url_to_subs, order ++ [full_url])
    | Some _ => (url_to_subs, order)
    end in
  let subs := url_to_subs !!! full_url in
  if bool_decide (subheading ∈ subs) then (url_to_subs, order)
  else (<[full_url := subs ++ [subheading]]> url_to_subs, order).

(** The body of the inner loop, for one anchor. *)
Definition collect_anchor `{PyLib} (base_url subheading : str)
    (acc : gmap str (list str) * list str) (a : option str)
    : gmap str (list str) * list str :=
  match a with
  | Some (c :: h) =>
      let href := c :: h in
      let full_url := urljoin base_url href in
      record_link subheading full_url acc
  | _ => acc                               (* if not href: continue *)
  end.

(** The body of the outer loop, for one section. *)
Definition collect_details `{PyLib} (base_url : str)
    (acc : gmap str (list str) * list str) (d : Details)
    : gmap str (list str) * list str :=
  let subheading := strip (summary_text d) in
  fold_left (collect_anchor base_url subheading) (anchors d) acc.

Definition _collect_text_links `{PyLib} (base_url : str)
    (details : list Details) : list (str * list str) :=
  let '(url_to_subs, order) :=
    fold_left (collect_details base_url) details (∅, []) in
  map (fun u => (u, url_to_subs !!! u)) order.

(** *** Outcomes of calls *)

(** What a call comes to: it returns, an exception leaves it, or the model
    has no fuel or no observation left to run it further. *)
Inductive Run (A : Type) : Type :=
| Return (a : A)
| Raised
| Diverged.

Arguments Return {A} a.
Arguments Raised {A}.
Arguments Diverged {A}.

(** *** The completion poller ([_wait_for_download]) *)

(** What one pass of the polling loop observes.  Times are in clock ticks;
    a [stat] that finds no file raises [FileNotFoundError], shown as [None]. *)
Record Poll := {
  clock : Z;                     (* time.time() - start at the loop test *)
  listing : list Path;           (* self.output_dir.glob("*"), no repetition *)
  st_mtime : Path -> option Z;   (* p.stat().st_mtime inside max() *)
  st_size1 : Path -> option Z;   (* target.stat().st_size, first sample *)
  still_exists : Path -> bool;   (* target.exists(), after the sleep *)
  st_size2 : Path -> option Z    (* target.stat().st_size, second sample *)
}.

(** [max(l, key=...)] with the keys already computed: the first element
    among those of greatest key. *)
Fixpoint max_by_key (best : Path * Z) (l : list (Path * Z)) : Path :=
  match l with
  | [] => fst best
  | pk :: l' =>
      if (snd best <? snd pk)%Z then max_by_key pk l' else max_by_key best l'
  end.

(** [max(epubs, key=lambda p: p.stat().st_mtime)] on a non-empty list;
    [None] when a [stat] raises. *)
Definition max_mtime (mtime : Path -> option Z) (epubs : list Path)
    : option Path :=
  match mapM (fun p => k ← mtime p; Some (p, k)) epubs with
  | Some (pk :: pks) => Some (max_by_key pk pks)
  | _ => None
  end.

Definition has_suffix `{PyLib} (ext : str) (p : Path) : bool :=
  bool_decide (lower (suffix p) = ext).

(** [current - before_set], in the order of the listing. *)
Definition new_files (before_set : gset Path) (current : list Path)
    : list Path :=
  List.filter (fun p => bool_decide (p ∉ before_set)) current.

(** The test [epubs and not temp_present] of one pass. *)
Definition ready `{PyLib} (before_set : gset Path) (o : Poll) : bool :=
  let current := listing o in
  let new := new_files before_set current in
  let temp_present := any (has_suffix (lit ".crdownload")) current in
  let epubs := List.filter (has_suffix (lit ".epub")) new in
  negb (bool_decide (epubs = [])) && negb temp_present.

(** The loop runs one pass per observation. *)
Fixpoint _wait_for_download `{PyLib} (before_set : gset Path) (timeout : Z)
    (polls : list Poll) : Run (option Path) :=
  match polls with
  | [] => Diverged
  | o :: polls' =>
      if (clock o <? timeout)%Z then
        let current := listing o in
        let new := new_files before_set current in
        let temp_present := any (has_suffix (lit ".crdownload")) current in
        let epubs := List.filter (has_suffix (lit ".epub")) new in
        if negb (bool_decide (epubs = [])) && negb temp_present then
          match max_mtime (st_mtime o) epubs with
          | None => Raised
          | Some target =>
              match st_size1 o target with
              | None => _wait_for_download before_set timeout polls'
              | Some size1 =>
                  if still_exists o target then
                    match st_size2 o target with
                    | Some size2 =>
                        if (size2 =? size1)%Z then Return (Some target)
                        else _wait_for_download before_set timeout polls'
                    | None => _wait_for_download before_set timeout polls'
                    end
                  else _wait_for_download before_set timeout polls'
              end
          end
        else _wait_for_download before_set timeout polls'
      else Return None
  end.

(** *** The file system and the log of what was done to it *)

Definition bytes : Type := list Byte.byte.

Inductive Event :=
| Visit (url : str)              (* self.driver.get(url) *)
| Replace (src dst : Path)       (* src.replace(dst) *)
| Copy2 (src dst : Path).        (* shutil.copy2(src, dst) *)

(** The files below [output_dir] (directories are implicit) and the events
    so far, oldest first: the pages asked for, and the moves and copies that
    went through. *)
Record World := {
  files : gmap Path bytes;
  events : list Event
}.

Definition log (e : Event) (w : World) : World :=
  {| files := files w; events := events w ++ [e] |}.

(** [p.exists()]. *)
Definition exists_ (w : World) (p : Path) : bool :=
  bool_decide (is_Some (files w !! p)).

(** [src.replace(dst)] when the operating system takes the call; [None]:
    the source is missing and it raises.  A call that the system refuses
    (permissions, a full disk, another device) is [unless_refused] below. *)
Definition replace (src dst : Path) (w : World) : option World :=
  match files w !! src with
  | Some data =>
      Some {| files := <[dst := data]> (delete src (files w));
              events := events w ++ [Replace src dst] |}
  | None => None
  end.

(** [shutil.copy2(src, dst)] when the operating system takes the call;
    [None]: the source is missing and it raises.  A copy that the system
    refuses is the [Fails] case of [try_copy2] below. *)
Definition copy2 (src dst : Path) (w : World) : option World :=
  match files w !! src with
  | Some data =>
      Some {| files := <[dst := data]> (files w);
              events := events w ++ [Copy2 src dst] |}
  | None => None
  end.

(** *** The uniqueness resolver ([_unique_path]) *)

(** [path.with_name(f"{stem} ({n}){ext}")]. *)
Definition candidate (path : Path) (n : nat) : Path :=
  with_name path
    (stem path ++ lit " (" ++ str_of_nat n ++ lit ")" ++ suffix path).

(** The [while True] loop from [n] on, for at most [fuel] passes. *)
Fixpoint unique_path_loop (w : World) (path : Path) (n fuel : nat)
    : option Path :=
  match fuel with
  | O => None
  | S fuel' =>
      if negb (exists_ w (candidate path n)) then Some (candidate path n)
      else unique_path_loop w path (n + 1) fuel'
  end.

(** One pass more than there are files is enough for the loop to return
    ([unique_path_returns] below). *)
Definition _unique_path (w : World) (path : Path) : option Path :=
  if negb (exists_ w path) then Some path
  else unique_path_loop w path 1 (S (size (files w))).

(** *** Folder names from topic labels *)

(** The condition of the generator expression that filters a label. *)
Definition keep `{PyLib} (c : N) : bool :=
  isalnum c || ((c =? 0x20) || (c =? 0x2D) || (c =? 0x5F)) || tibetan c.

(** The lines that compute [safe_subfolder] in
    [_download_epub_from_text_page] and, letter for letter the same,
    [safe_extra] in [scrape_all]. *)
Definition safe_name `{PyLib} (label : str) : str :=
  let safe := strip (List.filter keep label) in
  let safe := normalize_NFC safe in
  match safe with
  | [] => lit "Misc"
  | _ :: _ => safe
  end.

(** *** Calls that read and change the world *)

Definition M (A : Type) : Type := World -> Run (A * World).

Definition ret {A} (a : A) : M A := fun w => Return (a, w).

Definition bind {A B} (c : M A) (k : A -> M B) : M B :=
  fun w =>
    match c w with
    | Return (a, w') => k a w'
    | Raised => Raised
    | Diverged => Diverged
    end.

Notation "x <~ c ;; k" := (bind c (fun x => k))
  (at level 100, c at next level, right associativity).

(** [self._unique_path(path)] against the files of the moment. *)
Definition resolve (path : Path) : M Path :=
  fun w =>
    match _unique_path w path with
    | Some p => Return (p, w)
    | None => Diverged
    end.

(** [try: op except Exception: (log a warning)]; the flag says whether
    [op] went through. *)
Definition try_ (op : World -> option World) : M bool :=
  fun w =>
    match op w with
    | Some w' => Return (true, w')
    | None => Return (false, w)
    end.

Fixpoint for_each {A} (body : A -> M unit) (l : list A) : M unit :=
  match l with
  | [] => ret tt
  | x :: l' => _ <~ body x ;; for_each body l'
  end.

(** A call to the operating system that stands outside every [try]: it
    returns, or its exception leaves the method. *)
Definition may_raise (raises : bool) : M unit :=
  fun w => if raises then Raised else Return (tt, w).

(** [op] as the operating system takes it: when the system refuses, the
    call raises and nothing is changed. *)
Definition unless_refused (refused : bool) (op : World -> option World)
    : World -> option World :=
  fun w => if refused then None else op w.

(** How a [shutil.copy2] ends: it goes through, or it raises, and then it
    may have left a file of its own making at the destination. *)
Inductive Attempt :=
| GoesThrough
| Fails (residue : option bytes).

(** [try: shutil.copy2(src, dst) except Exception: (log a warning)]. *)
Definition try_copy2 (how : Attempt) (src dst : Path) : M bool :=
  match how with
  | GoesThrough => try_ (copy2 src dst)
  | Fails residue =>
      fun w =>
        Return (false,
                match residue with
                | Some part => {| files := <[dst := part]> (files w);
                                  events := events w |}
                | None => w
                end)
  end.

(** *** The browser, as the orchestration meets it *)

(** What the site, the browser and the operating system do while one
    document is processed.  The page state is the one on display after the
    switch to English was tried.  [download = Some (n, data)] stands for
    the browser writing the new file [output_dir / n] with contents [data]
    and [_wait_for_download] returning it; [None] for no file coming back.
    Then the poller returns [None], or raises ([target.stat()] inside [max]
    is outside its [try]), and the browser may have left files of its own in
    [output_dir] (a download that did not complete).  The browser writes
    under names that are free, never over a file. *)
Record PageEnv := {
  get_raises : bool;        (* self.driver.get(url) raises *)
  page : PageState;
  detection_raises : bool;  (* a driver call in the detection block raises *)
  downloads_block : bool;   (* the wait for the element #downloads succeeds *)
  epub_btn : bool;          (* the wait for a clickable EPUB link succeeds *)
  click_ok : bool;          (* the click, or its JavaScript fallback, succeeds *)
  download : option (str * bytes);
  poller_raises : bool;     (* no file comes back: the listing of the
                               directory or the poller raises *)
  left_behind : list (str * bytes);  (* no file comes back: what the
                                        browser has left in output_dir *)
  target_dir_raises : bool; (* target_dir.mkdir(...) or self._unique_path(...)
                               of the primary folder raises *)
  move_fails : bool;        (* downloaded.replace(target_path) raises *)
  lang_copy : Attempt;      (* the try block of the language copy *)
  tib_link : bool;          (* the language list has a Tibetan link *)
  tib_epub_btn : bool;      (* the Tibetan page has a clickable EPUB link *)
  tib_click_ok : bool;      (* that click, or its fallback, succeeds *)
  tib_download : option (str * bytes);
  tib_left_behind : list (str * bytes);
  tib_move_fails : bool;    (* the try block of the move into Tibetan/
                               raises *)
  extra_dir_raises : str -> bool;  (* for a further topic: target_dir.mkdir
                                       or self._unique_path raises *)
  extra_copy : str -> Attempt      (* for a further topic: the copy *)
}.

(** The files the browser has left in [output_dir], each under its name
    unless that name was taken. *)
Definition leave (remains : list (str * bytes)) (w : World) : World :=
  {| files := files w
              ∪ list_to_map (map (fun nd => (joinpath [] nd.1, nd.2)) remains);
     events := events w |}.

(** No file comes back from the poller. *)
Definition no_new_file (raises : bool) (remains : list (str * bytes))
    : M (option Path) :=
  fun w => if raises then Raised else Return (None, leave remains w).

(** [before = set(glob("*"))], the click, and [_wait_for_download(before)]:
    a file that was there before the click is not new. *)
Definition wait_new_file (dl : option (str * bytes)) (raises : bool)
    (remains : list (str * bytes)) : M (option Path) :=
  fun w =>
    match dl with
    | Some (n, data) =>
        let p := joinpath [] n in
        if exists_ w p then no_new_file raises remains w
        else Return (Some p, {| files := <[p := data]> (files w);
                                events := events w |})
    | None => no_new_file raises remains w
    end.

(** *** The per-document orchestration ([_download_epub_from_text_page]) *)

(** What the method returns: a path, [False] or [None]. *)
Inductive Returned :=
| RPath (final_path : Path)
| RFalse
| RNone.

(** [if subfolder: ...]: the move into the primary folder.  The folder is
    made and the free name is looked for before the [try]; the move is
    inside it. *)
Definition place_primary `{PyLib} (env : PageEnv) (downloaded : Path)
    (subfolder : option str) : M Path :=
  match subfolder with
  | Some (c :: s) =>
      let safe_subfolder := safe_name (c :: s) in
      let target_dir := [safe_subfolder] in
      _ <~ may_raise (target_dir_raises env) ;;
      target_path <~ resolve (joinpath target_dir (name downloaded)) ;;
      moved <~ try_ (unless_refused (move_fails env)
                       (replace downloaded target_path)) ;;
      ret (if moved then target_path else downloaded)
  | _ => ret downloaded
  end.

(** [if extra_language_dir: ...]: the copy into the language folder, all
    of it inside a [try]. *)
Definition copy_to_language (env : PageEnv) (final_path : Path)
    (extra_language_dir : option str) : M unit :=
  match extra_language_dir with
  | Some lang_name =>
      let lang_dir := [lang_name] in
      lang_target <~ resolve (joinpath lang_dir (name final_path)) ;;
      _ <~ try_copy2 (lang_copy env) final_path lang_target ;;
      ret tt
  | None => ret tt
  end.

(** [if extra_language_dir == "English": ...]: the Tibetan EPUB is fetched
    as well and moved into [Tibetan/].  The whole block is inside a [try]:
    a poller that raises ends it like one that returns [None]. *)
Definition fetch_tibetan (env : PageEnv)
    (extra_language_dir : option str) : M unit :=
  if bool_decide (extra_language_dir = Some (lit "English")) then
    if tib_link env && tib_epub_btn env && tib_click_ok env then
      tib_downloaded <~ wait_new_file (tib_download env) false
                          (tib_left_behind env) ;;
      match tib_downloaded with
      | Some tib_downloaded =>
          let tib_dir := [lit "Tibetan"] in
          tib_target <~ resolve (joinpath tib_dir (name tib_downloaded)) ;;
          _ <~ try_ (unless_refused (tib_move_fails env)
                       (replace tib_downloaded tib_target)) ;;
          ret tt
      | None => ret tt
      end
    else ret tt
  else ret tt.

(** [extra_language_dir] after the detection block: the [except] clause
    leaves it at [None]. *)
Definition detected_language (env : PageEnv) : option str :=
  if detection_raises env then None else extra_language_dir (page env).

Definition _download_epub_from_text_page `{PyLib} (env : PageEnv)
    (url : str) (subfolder : option str) : M Returned :=
  fun w =>
    if get_raises env then Raised else
    let w := log (Visit url) w in
    let extra_language_dir := detected_language env in
    if negb (downloads_block env) then Return (RFalse, w) else
    if negb (epub_btn env) then Return (RFalse, w) else
    if negb (click_ok env) then Return (RFalse, w) else
    (downloaded <~ wait_new_file (download env) (poller_raises env)
                     (left_behind env) ;;
     match downloaded with
     | Some downloaded =>
         final_path <~ place_primary env downloaded subfolder ;;
         _ <~ copy_to_language env final_path extra_language_dir ;;
         _ <~ fetch_tibetan env extra_language_dir ;;
         ret (RPath final_path)
     | None => ret RNone
     end) w.

(** *** The run coordinator ([scrape_all]) *)

Record Stats := {
  total : nat;
  success : nat;
  failed : nat
}.

(** The body of [for extra in subfolders[1:]]: the folder is made and the
    free name looked for outside the [try], the copy is inside it. *)
Definition copy_to_extra `{PyLib} (env : PageEnv) (final_path : Path)
    (extra : str) : M unit :=
  let safe_extra := safe_name extra in
  let target_dir := [safe_extra] in
  _ <~ may_raise (extra_dir_raises env extra) ;;
  target_path <~ resolve (joinpath target_dir (name final_path)) ;;
  _ <~ try_copy2 (extra_copy env extra) final_path target_path ;;
  ret tt.

(** The body of [for idx, (url, subfolders) in enumerate(items, 1)]. *)
Definition process_item `{PyLib} (site : str -> PageEnv) (st : Stats)
    (item : str * list str) : M Stats :=
  let '(url, subfolders) := item in
  match subfolders with
  | [] =>
      ret {| total := total st; success := success st;
             failed := failed st + 1 |}
  | primary :: extras =>
      final_path <~
        _download_epub_from_text_page (site url) url (Some primary) ;;
      match final_path with
      | RPath final_path =>
          _ <~ for_each (copy_to_extra (site url) final_path) extras ;;
          ret {| total := total st; success := success st + 1;
                 failed := failed st |}
      | _ =>
          ret {| total := total st; success := success st;
                 failed := failed st + 1 |}
      end
  end.

Fixpoint run_items `{PyLib} (site : str -> PageEnv) (st : Stats)
    (items : list (str * list str)) : M Stats :=
  match items with
  | [] => ret st
  | item :: items' =>
      st' <~ process_item site st item ;; run_items site st' items'
  end.

(** The loop of [scrape_all] with its counters, over the collected items. *)
Definition run_all `{PyLib} (site : str -> PageEnv)
    (items : list (str * list str)) : M Stats :=
  run_items site {| total := length items; success := 0; failed := 0 |} items.

(** [scrape_all], from the expanded sections of the topic page on. *)
Definition scrape_all `{PyLib} (site : str -> PageEnv) (base_url : str)
    (details : list Details) : M Stats :=
  let items := _collect_text_links base_url details in
  run_all site items.

End Scrap.

(** ** The JSON-to-folder transform: [json_to_folder.py] *)

Module JsonToFolder.

(** A record as [json.load] returns it, of the shape
    [{"title": {bo, en}, "text": [{bo?, en?, en-trans?}, ...]}]: dictionaries
    from strings to strings. *)
Record Data := {
  title : gmap str str;
  text : list (gmap str str)
}.

(** [verse.get(key, '')]: the value, or the empty string. *)
Definition get (verse : gmap str str) (key : str) : str :=
  default (empty_str) (verse !! key).

Definition newline : str := [0x0A].

Definition get_bo_text (data : Data) (title : str) : str :=
  fold_left
    (fun bo_text verse =>
       match get verse (lit "bo") with
       | [] => bo_text
       | _ :: _ => bo_text ++ (verse !!! lit "bo") ++ newline
       end)
    (text data) (title ++ newline).

Definition get_en_text (data : Data) (title : str) : str :=
  fold_left
    (fun en_text verse =>
       match get verse (lit "en") with
       | [] => en_text
       | _ :: _ => en_text ++ (verse !!! lit "en") ++ newline
       end)
    (text data) (title ++ newline).

(** The text files on disk: path (directories, then file name) to contents.
    [create_folder] gives the files once [mkdir], [open] and [write] have
    gone through; a call that the operating system refuses is accounted for
    in [JsonToFolderMain.main]. *)
Definition create_folder (output_dir : list str) (bo_title bo_text en_text : str)
    (fs : gmap (list str * str) str) : gmap (list str * str) str :=
  let folder_path := output_dir ++ [bo_title] in
  <[(folder_path, lit "en.txt") := en_text]>
    (<[(folder_path, lit "bo.txt") := bo_text]> fs).

(** [None]: a [KeyError] for a missing title. *)
Definition json_to_folder (data : Data) (output_dir : list str)
    (fs : gmap (list str * str) str) : option (gmap (list str * str) str) :=
  bo_title ← title data !! lit "bo";
  en_title ← title data !! lit "en";
  let bo_text := get_bo_text data bo_title in
  let en_text := get_en_text data en_title in
  Some (create_folder output_dir bo_title bo_text en_text fs).

End JsonToFolder.

(** ** A fragment of Python's library, to run the scraper on examples

    On strings made of ASCII characters and of the code points U+0915
    (DEVANAGARI LETTER KA), U+093C (DEVANAGARI SIGN NUKTA) and U+0958
    (DEVANAGARI LETTER QA) the functions below return what Python returns:
    of these, the alphanumeric characters are the ASCII letters and digits,
    U+0915 and U+0958; NFC rewrites U+0958, which is excluded from
    composition, to U+0915 U+093C and changes nothing else; only A-Z have
    a different lower case; [urljoin] returns an absolute URL as it is. *)

Definition ascii_alnum (c : N) : bool :=
  ((0x30 <=? c) && (c <=? 0x39)) || ((0x41 <=? c) && (c <=? 0x5A))
  || ((0x61 <=? c) && (c <=? 0x7A)).

Definition fragment_isalnum (c : N) : bool :=
  ascii_alnum c || (c =? 0x915) || (c =? 0x958).

Definition fragment_nfc_char (c : N) : str :=
  if c =? 0x958 then [0x915; 0x93C] else [c].

Definition fragment_nfc (s : str) : str := flat_map fragment_nfc_char s.

Definition fragment_lower (s : str) : str :=
  map (fun c => if (0x41 <=? c) && (c <=? 0x5A) then c + 32 else c) s.

Definition py_fragment : PyLib := {|
  isalnum := fragment_isalnum;
  normalize_NFC := fragment_nfc;
  lower := fragment_lower;
  urljoin := fun _ url => url
|}.

(** ** What the specification says, in its own words *)

Module Spec.

(** The elements of a list in first-seen order, each once. *)
Fixpoint first_seen (l : list str) : list str :=
  match l with
  | [] => []
  | x :: l' => x :: List.filter (fun y => negb (bool_decide (y = x))) (first_seen l')
  end.

(** The section labels under which [url] appears, in order of appearance. *)
Definition labels_of (url : str) (pairs : list (str * str)) : list str :=
  map fst (List.filter (fun p => bool_decide (snd p = url)) pairs).

(** From the (sectionLabel, anchorURL) pairs read off the page: the URLs in
    first-seen order, each with its distinct labels in appearance order. *)
Definition collected (pairs : list (str * str)) : list (str * list str) :=
  map (fun url => (url, first_seen (labels_of url pairs)))
      (first_seen (map snd pairs)).

End Spec.

Import Scrap.

(** The (sectionLabel, anchorURL) pairs that [_collect_text_links] reads:
    for each section its stripped summary, for each anchor with a non-empty
    [href] its absolute URL. *)
Definition pairs_read `{PyLib} (base_url : str) (details : list Details)
    : list (str * str) :=
  flat_map
    (fun d =>
       flat_map
         (fun a =>
            match a with
            | Some (c :: h) => [(strip (summary_text d), urljoin base_url (c :: h))]
            | _ => []
            end)
         (anchors d))
    details.

(** The state of [url_to_subs] and [order] that the specification asks for
    once the pairs [l] were read: the invariant of the two loops. *)
Definition recorded (l : list (str * str))
    (acc : gmap str (list str) * list str) : Prop :=
  acc.2 = Spec.first_seen (map snd l)
  /\ forall u, acc.1 !! u =
       if bool_decide (u ∈ map snd l)
       then Some (Spec.first_seen (Spec.labels_of u l)) else None.

(** ** The landing page of the specification's scenario

    Two sections: "Dedications" with a link to document A, "Aspirations"
    with links to documents A and B. *)

Definition scenario_base : str :=
  lit "https://www.lotsawahouse.org/bo/topics/prayers/".

Definition url_A : str := lit "https://www.lotsawahouse.org/bo/a".
Definition url_B : str := lit "https://www.lotsawahouse.org/bo/b".

Definition scenario_page : list Details :=
  [ {| summary_text := lit "Dedications"; anchors := [Some url_A] |};
    {| summary_text := lit "Aspirations"; anchors := [Some url_A; Some url_B] |} ].

(** ** The JSON record of the specification's scenario

    [{"title":{"bo":"T","en":"E"},"text":[{"bo":"a","en":"b"},{"bo":"c"}]}] *)

Definition scenario_record : JsonToFolder.Data := {|
  JsonToFolder.title := <[lit "bo" := lit "T"]> (<[lit "en" := lit "E"]> ∅);
  JsonToFolder.text :=
    [ <[lit "bo" := lit "a"]> (<[lit "en" := lit "b"]> ∅);
      <[lit "bo" := lit "c"]> ∅ ]
|}.

(** The lines that the verses contribute for the language [key]: every
    present, non-empty value, each followed by a line feed. *)
Definition verse_lines (key : str) (verses : list (gmap str str)) : str :=
  flat_map
    (fun verse =>
       match verse !! key with
       | Some (c :: v) => (c :: v) ++ JsonToFolder.newline
       | _ => []
       end)
    verses.

(** ** Two runs of the completion poller

    The sink holds "old.epub" before the click.  In [polls_complete] the
    browser is still writing "new.epub" at the first pass (its
    "new.epub.crdownload" is listed), and at the second pass the file is
    there with the same size at both samples.  In [polls_stuck] the
    in-progress file never goes away and the clock passes the timeout. *)

Definition sink (n : string) : Path := joinpath [] (lit n).

Definition stat_of (table : list (Path * Z)) (p : Path) : option Z :=
  snd <$> List.find (fun e => bool_decide (fst e = p)) table.

Definition poll_at (t : Z) (names : list string) (sizes : list (Path * Z))
    : Poll := {|
  clock := t;
  listing := map sink names;
  st_mtime := stat_of (map (fun n => (sink n, t)) names);
  st_size1 := stat_of sizes;
  still_exists := fun p => bool_decide (is_Some (stat_of sizes p));
  st_size2 := stat_of sizes
|}.

Definition polls_complete : list Poll :=
  [ poll_at 0 ["old.epub"; "new.epub.crdownload"] [];
    poll_at 1 ["old.epub"; "new.epub"] [(sink "new.epub", 4096%Z)] ].

Definition polls_stuck : list Poll :=
  [ poll_at 0 ["old.epub"; "new.epub.crdownload"] [];
    poll_at 60 ["old.epub"; "new.epub.crdownload"] [];
    poll_at 120 ["old.epub"; "new.epub.crdownload"] [] ].

(** ** Strings without white space at their ends *)

Definition no_space_at_start (s : str) : bool :=
  match s with
  | [] => true
  | c :: _ => negb (isspace c)
  end.

(** [s.strip() == s]. *)
Definition stripped (s : str) : bool :=
  no_space_at_start s && no_space_at_start (rev s).

Definition is_ascii (s : str) : bool := forallb (fun c => c <? 0x80) s.

(** ** Counting what a run did *)

(** The pages visited, in order. *)
Definition visited (es : list Event) : list str :=
  omap (fun e => match e with Visit url => Some url | _ => None end) es.

(** The number of file moves. *)
Definition moves (es : list Event) : nat :=
  length (List.filter (fun e => match e with Replace _ _ => true | _ => false end) es).

(** The number of file copies. *)
Definition copies (es : list Event) : nat :=
  length (List.filter (fun e => match e with Copy2 _ _ => true | _ => false end) es).

(** The documents of a list that have a topic, and those that have none. *)
Definition has_topics (item : str * list str) : bool :=
  match snd item with
  | [] => false
  | _ :: _ => true
  end.

(** ** Calls that return

    [returns c w post]: run in the world [w], the call [c] returns, with a
    value and in a world that satisfy [post]. *)

Definition returns {A} (c : M A) (w : World) (post : A -> World -> Prop)
    : Prop :=
  exists a w', c w = Return (a, w') /\ post a w'.

(** [ensures c w post]: when the call [c], run in the world [w], returns,
    it does so with a value and in a world that satisfy [post]. *)
Definition ensures {A} (c : M A) (w : World) (post : A -> World -> Prop)
    : Prop :=
  forall a w', c w = Return (a, w') -> post a w'.

(** What a call that returns has returned, and in which world; [default]
    and [w] when it does not return. *)
Definition result_of {A} (c : M A) (w : World) (default : A) : A * World :=
  match c w with
  | Return aw => aw
  | _ => (default, w)
  end.

(** A call that visits no page. *)
Definition quiet {A} (c : M A) : Prop :=
  forall w, ensures c w (fun _ w' => visited (events w') = visited (events w)).

(** Every file of [w] is in [w'], with the contents it had. *)
Definition keeps (w w' : World) : Prop :=
  forall p c, files w !! p = Some c -> files w' !! p = Some c.

(** What the loop of [scrape_all] does with one document: one count, and
    a visit of its page unless it has no topic. *)
Definition counted_once (url : str) (topics : list str) (st : Stats)
    (w : World) (st' : Stats) (w' : World) : Prop :=
  total st' = total st
  /\ (success st' + failed st' = success st + failed st + 1)%nat
  /\ (success st <= success st')%nat /\ (failed st <= failed st')%nat
  /\ (topics = [] -> failed st' = (failed st + 1)%nat /\ w' = w)
  /\ visited (events w') =
     visited (events w) ++ (if has_topics (url, topics) then [url] else []).

(** ** What the orchestration has done when it returns *)

(** The page offers the EPUB control and the click goes through. *)
Definition control_works (env : PageEnv) : bool :=
  downloads_block env && epub_btn env && click_ok env.

(** The file that comes back from the poller: the download, when its name
    was free in [output_dir]. *)
Definition arrives (env : PageEnv) (w : World) : option (str * bytes) :=
  match download env with
  | Some (n, data) =>
      if exists_ w (joinpath [] n) then None else Some (n, data)
  | None => None
  end.

(** The controls of the Tibetan page work. *)
Definition tib_control_works (env : PageEnv) : bool :=
  tib_link env && tib_epub_btn env && tib_click_ok env.

(** What an orchestration that returns a path has done with the download
    [n], of contents [data]: the events [mv] of the move into the primary
    folder, [lang] of the copy into the language folder and [tib] of the
    second download, each of them empty when the call was not made or did
    not go through; where the files are; every earlier file as it was. *)
Definition placed `{PyLib} (env : PageEnv) (url : str)
    (subfolder : option str) (w : World) (n : str) (data : bytes)
    (final_path : Path) (w' : World) : Prop :=
  exists mv lang tib,
    events w' = events w ++ [Visit url] ++ mv ++ lang ++ tib
    /\ match subfolder with
       | Some (c :: s) =>
           target_dir_raises env = false
           /\ if move_fails env
              then mv = [] /\ final_path = joinpath [] n
              else mv = [Replace (joinpath [] n) final_path]
                   /\ parent final_path = [safe_name (c :: s)]
                   /\ files w !! final_path = None
       | _ => mv = [] /\ final_path = joinpath [] n
       end
    /\ files w' !! final_path = Some data
    /\ match detected_language env, lang_copy env with
       | Some l, GoesThrough =>
           exists lt, lang = [Copy2 final_path lt] /\ parent lt = [l]
                      /\ files w !! lt = None /\ files w' !! lt = Some data
       | _, _ => lang = []
       end
    /\ (tib = []
        \/ detected_language env = Some (lit "English")
           /\ tib_control_works env = true
           /\ tib_move_fails env = false
           /\ exists tn tdata tt,
                tib_download env = Some (tn, tdata)
                /\ tib = [Replace (joinpath [] tn) tt]
                /\ parent tt = [lit "Tibetan"]
                /\ files w !! tt = None
                /\ files w' !! tt = Some tdata)
    /\ (detected_language env = Some (lit "English") ->
        tib_control_works env = true ->
        tib_move_fails env = false ->
        forall tn tdata,
          tib_download env = Some (tn, tdata) ->
          files w !! joinpath [] tn = None ->
          joinpath [] tn <> final_path ->
          tib <> [])
    /\ keeps w w'.

(** What the orchestration has done when it returns [r]. *)
Definition orchestrated `{PyLib} (env : PageEnv) (url : str)
    (subfolder : option str) (w : World) (r : Returned) (w' : World)
    : Prop :=
  match r with
  | RFalse => control_works env = false /\ w' = log (Visit url) w
  | RNone =>
      control_works env = true /\ arrives env w = None
      /\ poller_raises env = false
      /\ w' = leave (left_behind env) (log (Visit url) w)
  | RPath final_path =>
      control_works env = true
      /\ exists n data,
           arrives env w = Some (n, data)
           /\ placed env url subfolder w n data final_path w'
  end.

(** ** Calls that go through, calls that raise *)

Definition goes_through (how : Attempt) : bool :=
  match how with
  | GoesThrough => true
  | Fails _ => false
  end.

(** None of the moves and copies that place the download is refused: the
    move into the primary folder, the copy into the language folder when a
    language was detected, the copies into the folders of the further
    topics. *)
Definition file_calls_go_through (env : PageEnv) (extras : list str)
    : bool :=
  negb (move_fails env)
  && match detected_language env with
     | Some _ => goes_through (lang_copy env)
     | None => true
     end
  && forallb (fun extra => goes_through (extra_copy env extra)) extras.

(** None of the calls that stand outside a [try] raises for the document:
    [driver.get], the poller, and the making of the topic folders. *)
Definition unguarded_calls_return (site : str -> PageEnv)
    (item : str * list str) : bool :=
  let env := site item.1 in
  negb (get_raises env) && negb (poller_raises env)
  && negb (target_dir_raises env)
  && forallb (fun extra => negb (extra_dir_raises env extra)) (tail item.2).

(** ** Two document pages for the scenario

    Document A is listed under "Dedications" and "Aspirations".  On
    [english_only] its page, after the switch to English, has no paragraph
    of class bo and no Tibetan character, and offers no Tibetan link; on
    [bilingual] the page shows both languages.  Either way the browser
    delivers "a.epub". *)

Definition epub_bytes : bytes := [Byte.x50; Byte.x4b; Byte.x03; Byte.x04].

Definition page_env (pg : PageState) : PageEnv := {|
  get_raises := false;
  page := pg;
  detection_raises := false;
  downloads_block := true;
  epub_btn := true;
  click_ok := true;
  download := Some (lit "a.epub", epub_bytes);
  poller_raises := false;
  left_behind := [];
  target_dir_raises := false;
  move_fails := false;
  lang_copy := GoesThrough;
  tib_link := false;
  tib_epub_btn := false;
  tib_click_ok := false;
  tib_download := None;
  tib_left_behind := [];
  tib_move_fails := false;
  extra_dir_raises := fun _ => false;
  extra_copy := fun _ => GoesThrough
|}.

Definition english_only (_ : str) : PageEnv :=
  page_env {| current_url := lit "https://www.lotsawahouse.org/a";
              has_bo_class := false; has_en_class := true;
              has_en_trans_class := false;
              maintext_elms := [lit "May all beings be happy"] |}.

Definition bilingual (_ : str) : PageEnv :=
  page_env {| current_url := lit "https://www.lotsawahouse.org/a";
              has_bo_class := true; has_en_class := true;
              has_en_trans_class := false;
              maintext_elms := [lit "May all beings be happy"] |}.

Definition document_A : str * list str :=
  (url_A, [lit "Dedications"; lit "Aspirations"]).

Definition no_stats : Stats := {| total := 1; success := 0; failed := 0 |}.

Definition empty_world : World := {| files := ∅; events := [] |}.

(** A run over three documents: A as above, B whose page has no downloads
    block, and C that was collected without topic. *)

Definition no_downloads : PageEnv := {|
  get_raises := false;
  page := {| current_url := lit "https://www.lotsawahouse.org/bo/b";
             has_bo_class := true; has_en_class := false;
             has_en_trans_class := false; maintext_elms := [] |};
  detection_raises := false;
  downloads_block := false;
  epub_btn := false;
  click_ok := false;
  download := None;
  poller_raises := false;
  left_behind := [];
  target_dir_raises := false;
  move_fails := false;
  lang_copy := GoesThrough;
  tib_link := false;
  tib_epub_btn := false;
  tib_click_ok := false;
  tib_download := None;
  tib_left_behind := [];
  tib_move_fails := false;
  extra_dir_raises := fun _ => false;
  extra_copy := fun _ => GoesThrough
|}.

Definition url_C : str := lit "https://www.lotsawahouse.org/bo/c".

(** The same site on a day when the page of document A does not load:
    [driver.get] raises for it. *)
Definition page_not_loading : PageEnv := {|
  get_raises := true;
  page := page no_downloads;
  detection_raises := false;
  downloads_block := false;
  epub_btn := false;
  click_ok := false;
  download := None;
  poller_raises := false;
  left_behind := [];
  target_dir_raises := false;
  move_fails := false;
  lang_copy := GoesThrough;
  tib_link := false;
  tib_epub_btn := false;
  tib_click_ok := false;
  tib_download := None;
  tib_left_behind := [];
  tib_move_fails := false;
  extra_dir_raises := fun _ => false;
  extra_copy := fun _ => GoesThrough
|}.

Definition unreachable_site (url : str) : PageEnv :=
  if bool_decide (url = url_A) then page_not_loading else bilingual url.

(** [failed += 1]. *)
Definition count_failed (st : Stats) : Stats :=
  {| total := total st; success := success st; failed := failed st + 1 |}.

Definition scenario_site (url : str) : PageEnv :=
  if bool_decide (url = url_A) then bilingual url else no_downloads.

Definition scenario_items : list (str * list str) :=
  [ document_A; (url_B, [lit "Aspirations"]); (url_C, []) ].

(** A topic folder in which "a.epub" and "a (1).epub" are taken. *)
Definition crowded_world : World := {|
  files := <[joinpath [lit "Aspirations"] (lit "a.epub") := epub_bytes]>
             (<[joinpath [lit "Aspirations"] (lit "a (1).epub") := epub_bytes]> ∅);
  events := []
|}.

(** * Further functions of the repository

    The rest of [scrap.py] and of [json_to_folder.py], and the converter
    [epub_to_zip.py] that reads the scraper's output tree. *)

(** ** Driver calls and [try] blocks *)

(** A driver call that returns a value, or raises ([None]). *)
Definition call {A} (result : option A) : Run A :=
  match result with
  | Some a => Return a
  | None => Raised
  end.

(** A driver call made for its effect: it goes through, or raises. *)
Definition effect (goes_through : bool) : Run unit :=
  if goes_through then Return tt else Raised.

Definition and_then {A B} (c : Run A) (k : A -> Run B) : Run B :=
  match c with
  | Return a => k a
  | Raised => Raised
  | Diverged => Diverged
  end.

(** [try: body except Exception: handler]. *)
Definition try_except {A} (body handler : Run A) : Run A :=
  match body with
  | Raised => handler
  | _ => body
  end.

(** ** The cookie banner ([_dismiss_cookie_banner]) *)

(** How the page answers the calls of [_dismiss_cookie_banner]. *)
Record Banner := {
  banner_found : bool;             (* find_element(By.ID, "tasty-cookies") returns *)
  banner_displayed : option bool;  (* banner.is_displayed(); None: it raises *)
  accept_found : bool;             (* banner.find_element(By.XPATH, ...) returns *)
  accept_click : bool;             (* accept.click() goes through *)
  accept_script_click : bool;      (* execute_script("arguments[0].click();") does *)
  hide_script : bool               (* execute_script("...display='none';") does *)
}.

(** What was done to the page. *)
Inductive BannerAction :=
| ClickAccept
| ScriptClickAccept
| ScriptHide.

Definition _dismiss_cookie_banner (b : Banner) : Run (list BannerAction) :=
  match effect (banner_found b) with
  | Return _ =>
      try_except
        (and_then (call (banner_displayed b)) (fun displayed =>
           if displayed then
             try_except
               (and_then (effect (accept_found b)) (fun _ =>
                  try_except
                    (and_then (effect (accept_click b))
                       (fun _ => Return [ClickAccept]))
                    (and_then (effect (accept_script_click b))
                       (fun _ => Return [ScriptClickAccept]))))
               (and_then (effect (hide_script b))
                  (fun _ => Return [ScriptHide]))
           else Return []))
        (Return [])                        (* except Exception: pass *)
  | _ => Return []                         (* except Exception: return *)
  end.

(** ** The uniqueness resolver, called again and again *)



(** ** Documents that deliver a file *)


(** ** The batch of [json_to_folder.py] ([main]) *)

Module JsonToFolderMain.

Import JsonToFolder.

Definition OUTPUT_DIR : list str := [lit "wb_prayers"; lit "folders"].

(** How the batch ends: the loop comes to its end; or a record lacks a
    title, and the [KeyError] leaves [main] with the files as they are at
    that moment; or [mkdir], [open] or [write] raises for a record, whose
    folder may then hold a part of its files. *)
Inductive Ended :=
| Completed (fs : gmap (list str * str) str)
| KeyError (fs : gmap (list str * str) str)
| OSError.

(** [main], over the records of the files that [glob("*.json")] yields, in
    that order.  [json_to_folder] gives the files of a record once [mkdir],
    [open] and [write] have gone through; whether they do is for the
    operating system to say ([accepted]): it refuses a title that is too
    long for a directory name or holds a NUL, and a text with a lone
    surrogate cannot be encoded.  The titles are read before any of these
    calls. *)
Fixpoint main (accepted : Data -> bool) (records : list Data)
    (fs : gmap (list str * str) str) : Ended :=
  match records with
  | [] => Completed fs
  | data :: records' =>
      match json_to_folder data OUTPUT_DIR fs with
      | Some fs' =>
          if accepted data then main accepted records' fs' else OSError
      | None => KeyError fs
      end
  end.

End JsonToFolderMain.

(** ** The converter [epub_to_zip.py] *)

Module EpubToZip.

Definition INPUT_DIR : list str := [lit "wb_prayers"; lit "epubs"].
Definition OUTPUT_DIR : list str := [lit "wb_prayers"; lit "zips"].

(** Here a path is taken from the working directory: the directories that
    lead to the file, and its name. *)



(** [epub_file.relative_to(input_dir).parent]. *)
Definition rel_parent (input_dir : list str) (p : Path) : list str :=
  drop (length input_dir) (parent p).

(** The path [dest_dir / (epub_file.stem + ".zip")] of the loop body. *)
Definition zip_file (input_dir output_dir : list str) (epub_file : Path)
    : Path :=
  let dest_dir := output_dir ++ rel_parent input_dir epub_file in
  joinpath dest_dir (stem epub_file ++ lit ".zip").

(** [shutil.copy2(src, dst)] on files: [dst] is written, over what was
    there; [None]: [src] is missing and the call raises. *)
Definition copy2_over (src dst : Path) (fs : gmap Path bytes)
    : option (gmap Path bytes) :=
  match fs !! src with
  | Some data => Some (<[dst := data]> fs)
  | None => None
  end.

(** The loop of [main] over [epub_files], the list that [rglob] gave. *)
Fixpoint convert (input_dir output_dir : list str) (epub_files : list Path)
    (fs : gmap Path bytes) : option (gmap Path bytes) :=
  match epub_files with
  | [] => Some fs
  | epub_file :: rest =>
      match copy2_over epub_file (zip_file input_dir output_dir epub_file) fs with
      | Some fs' => convert input_dir output_dir rest fs'
      | None => None
      end
  end.

(** [main]: [OUTPUT_DIR] differs from [INPUT_DIR], so [in_place] is false
    and the copies go below [OUTPUT_DIR]. *)
Definition main (epub_files : list Path) (fs : gmap Path bytes)
    : option (gmap Path bytes) :=
  match epub_files with
  | [] => Some fs                          (* "No EPUB files found": return *)
  | _ :: _ => convert INPUT_DIR OUTPUT_DIR epub_files fs
  end.




End EpubToZip.


(** ** Records and titles, for the properties of [json_to_folder.py] *)

(** A verse with every key but [key] taken away. *)
Definition only_key (key : str) (verse : gmap str str) : gmap str str :=
  match verse !! key with
  | Some v => <[key := v]> ∅
  | None => ∅
  end.

(** The record with every verse cut down to [key]. *)
Definition only_language (key : str) (data : JsonToFolder.Data)
    : JsonToFolder.Data :=
  {| JsonToFolder.title := JsonToFolder.title data;
     JsonToFolder.text := map (only_key key) (JsonToFolder.text data) |}.

(** The record has the two titles that [json_to_folder] reads. *)
Definition has_titles (data : JsonToFolder.Data) : bool :=
  bool_decide (is_Some (JsonToFolder.title data !! lit "bo"))
  && bool_decide (is_Some (JsonToFolder.title data !! lit "en")).

(** The record goes through: it has both titles, and the operating system
    takes its folder and its two files. *)
Definition goes_in (accepted : JsonToFolder.Data -> bool)
    (data : JsonToFolder.Data) : bool :=
  has_titles data && accepted data.

(** A title that [output_dir / bo_title] takes as one directory name: not
    empty, not ".", without a slash. *)
Definition plain_name (t : str) : bool :=
  negb (bool_decide (t = [])) && negb (bool_decide (t = lit "."))
  && negb (bool_decide (0x2F ∈ t)).

(** The Tibetan title of a record, or the empty string. *)
Definition bo_title (data : JsonToFolder.Data) : str :=
  default [] (JsonToFolder.title data !! lit "bo").

Definition en_title (data : JsonToFolder.Data) : str :=
  default [] (JsonToFolder.title data !! lit "en").

(** A second record with the Tibetan title of [scenario_record]. *)
Definition scenario_record_2 : JsonToFolder.Data := {|
  JsonToFolder.title := <[lit "bo" := lit "T"]> (<[lit "en" := lit "F"]> ∅);
  JsonToFolder.text := [ <[lit "bo" := lit "d"]> ∅ ]
|}.

(** A record with another Tibetan title, and one without English title. *)
Definition scenario_record_3 : JsonToFolder.Data := {|
  JsonToFolder.title := <[lit "bo" := lit "U"]> (<[lit "en" := lit "G"]> ∅);
  JsonToFolder.text := [ <[lit "en" := lit "e"]> (<[lit "en-trans" := lit "x"]> ∅) ]
|}.

Definition record_without_en : JsonToFolder.Data := {|
  JsonToFolder.title := <[lit "bo" := lit "V"]> ∅;
  JsonToFolder.text := []
|}.


(** ** A run of the poller in which a file goes away

    At the second pass "new.epub" is listed, and is gone when [max] asks for
    its modification time. *)

Definition poll_vanished : Poll := {|
  clock := 1;
  listing := map sink ["old.epub"; "new.epub"];
  st_mtime := stat_of [(sink "old.epub", 0%Z)];
  st_size1 := fun _ => None;
  still_exists := fun _ => false;
  st_size2 := fun _ => None
|}.

Definition polls_vanished : list Poll :=
  [ poll_at 0 ["old.epub"; "new.epub.crdownload"] []; poll_vanished ].

(** The new files with the ".epub" suffix that a pass sees. *)
Definition new_epubs `{PyLib} (before_set : gset Path) (o : Poll)
    : list Path :=
  List.filter (has_suffix (lit ".epub")) (new_files before_set (listing o)).

(** ** An English-only page with a Tibetan counterpart

    The page of document A as in [english_only], with a Tibetan link whose
    page delivers "a-bo.epub". *)



(** ** Pages on a bad day

    [timed_out]: the EPUB control works, the download does not complete and
    the poller returns [None] with "a.epub.crdownload" left in the output
    directory.  [move_refused]: the bilingual page of document A, on a day
    when the operating system refuses the move into the topic folder. *)

Definition partial_bytes : bytes := [Byte.x50; Byte.x4b].

Definition timed_out : PageEnv := {|
  get_raises := false;
  page := page no_downloads;
  detection_raises := false;
  downloads_block := true;
  epub_btn := true;
  click_ok := true;
  download := None;
  poller_raises := false;
  left_behind := [(lit "a.epub.crdownload", partial_bytes)];
  target_dir_raises := false;
  move_fails := false;
  lang_copy := GoesThrough;
  tib_link := false;
  tib_epub_btn := false;
  tib_click_ok := false;
  tib_download := None;
  tib_left_behind := [];
  tib_move_fails := false;
  extra_dir_raises := fun _ => false;
  extra_copy := fun _ => GoesThrough
|}.

Definition move_refused : PageEnv := {|
  get_raises := false;
  page := page (bilingual []);
  detection_raises := false;
  downloads_block := true;
  epub_btn := true;
  click_ok := true;
  download := Some (lit "a.epub", epub_bytes);
  poller_raises := false;
  left_behind := [];
  target_dir_raises := false;
  move_fails := true;
  lang_copy := GoesThrough;
  tib_link := false;
  tib_epub_btn := false;
  tib_click_ok := false;
  tib_download := None;
  tib_left_behind := [];
  tib_move_fails := false;
  extra_dir_raises := fun _ => false;
  extra_copy := fun _ => GoesThrough
|}.

(** ** Content-language classification *)

Section Classification.

Lemma any_iff {A} (p : A -> bool) (l : list A) :
  any p l = true <-> exists x, x ∈ l /\ p x = true.
Proof.
  unfold any. rewrite existsb_exists.
  split; intros (x & Hx & Hp); exists x; split; auto;
    by apply list_elem_of_In.
Qed.

Lemma tibetan_range (ch : N) :
  tibetan ch = true <-> 0xF00 <= ch /\ ch <= 0xFFF.
Proof.
  unfold tibetan. rewrite andb_true_iff, !N.leb_le. tauto.
Qed.

(** C1. For every page state, [extra_language_dir] is "English" exactly when
    the page is not the Tibetan ("/bo/") page and shows neither a paragraph
    of class bo nor a character of U+0F00..U+0FFF in the main text; it is
    "Tibetan" exactly when the page is the Tibetan page and shows neither
    class en nor class en-trans; it is [None] in every other case. *)
Theorem classification_rule (pg : PageState) :
  let script := exists ch, ch ∈ maintext_text pg /\ 0xF00 <= ch /\ ch <= 0xFFF in
  let english_only :=
    is_tibetan_page pg = false /\ has_bo_class pg = false /\ ~ script in
  let tibetan_only :=
    is_tibetan_page pg = true /\ has_en_class pg = false
    /\ has_en_trans_class pg = false in
  (extra_language_dir pg = Some (lit "English") <-> english_only)
  /\ (extra_language_dir pg = Some (lit "Tibetan") <-> tibetan_only)
  /\ (extra_language_dir pg = None <-> ~ english_only /\ ~ tibetan_only).
Proof.
  intros script english_only tibetan_only.
  assert (Hs : tibetan_script_present pg = true <-> script).
  { unfold tibetan_script_present, script. rewrite any_iff.
    split; intros (ch & Hin & Hch); exists ch; split; auto;
      by apply tibetan_range. }
  assert (Hn : tibetan_script_present pg = false <-> ~ script).
  { rewrite <- Hs. by destruct (tibetan_script_present pg). }
  assert (Hne : lit "English" <> lit "Tibetan") by (vm_compute; discriminate).
  unfold english_only, tibetan_only, extra_language_dir.
  destruct (is_tibetan_page pg), (has_bo_class pg), (has_en_class pg),
    (has_en_trans_class pg), (tibetan_script_present pg) eqn:Ht;
    cbn [negb orb andb]; rewrite <- ?Hn; intuition congruence.
Qed.

End Classification.

(** ** Link collection *)

Section Collection.

Context `{PyLib}.

Lemma first_seen_elem (x : str) (l : list str) :
  x ∈ Spec.first_seen l <-> x ∈ l.
Proof.
  induction l as [|a l IH]; cbn; [done|].
  rewrite !elem_of_cons, list_elem_of_In, filter_In, <- list_elem_of_In, IH.
  rewrite negb_true_iff, bool_decide_eq_false.
  destruct (decide (x = a)); tauto.
Qed.

Lemma first_seen_snoc (l : list str) (x : str) :
  Spec.first_seen (l ++ [x]) =
  if bool_decide (x ∈ l) then Spec.first_seen l else Spec.first_seen l ++ [x].
Proof.
  induction l as [|a l IH]; cbn; [done|].
  rewrite IH. destruct (decide (x = a)) as [->|Hxa].
  - rewrite (bool_decide_eq_true_2 (a ∈ a :: l)) by apply list_elem_of_here.
    case_bool_decide; [done|].
    rewrite List.filter_app; cbn.
    rewrite bool_decide_eq_true_2 by done. cbn. by rewrite app_nil_r.
  - case_bool_decide as Hin.
    + rewrite bool_decide_eq_true_2; [done|]. by apply list_elem_of_further.
    + rewrite bool_decide_eq_false_2.
      2:{ rewrite elem_of_cons. tauto. }
      rewrite List.filter_app; cbn.
      rewrite bool_decide_eq_false_2 by done. done.
Qed.

Lemma first_seen_NoDup (l : list str) : NoDup (Spec.first_seen l).
Proof.
  induction l as [|a l IH]; cbn; constructor.
  - rewrite list_elem_of_In, filter_In, negb_true_iff, bool_decide_eq_false.
    tauto.
  - apply NoDup_ListNoDup, List.NoDup_filter. by apply NoDup_ListNoDup.
Qed.

Lemma labels_of_snoc (u s v : str) (l : list (str * str)) :
  Spec.labels_of u (l ++ [(s, v)]) =
  if bool_decide (v = u) then Spec.labels_of u l ++ [s] else Spec.labels_of u l.
Proof.
  unfold Spec.labels_of. rewrite List.filter_app, map_app; cbn.
  case_bool_decide; cbn; [done|]. by rewrite app_nil_r.
Qed.

Lemma labels_of_absent (u : str) (l : list (str * str)) :
  u ∉ map snd l -> Spec.labels_of u l = [].
Proof.
  induction l as [|[s v] l IH]; cbn; [done|].
  rewrite not_elem_of_cons. intros [Hne Hl].
  unfold Spec.labels_of in *; cbn.
  rewrite bool_decide_eq_false_2 by done. auto.
Qed.

Lemma if_bool_decide_other {A} (P Q : Prop) `{Decision P, Decision Q}
    (x y : A) :
  (P <-> Q) ->
  (if bool_decide Q then x else y) = (if bool_decide P then x else y).
Proof. intros HPQ. by rewrite (bool_decide_ext _ _ HPQ). Qed.

Lemma record_link_recorded l acc s v :
  recorded l acc -> recorded (l ++ [(s, v)]) (record_link s v acc).
Proof.
  destruct acc as [m order]. intros [Ho Hm]; cbn in Ho, Hm.
  unfold record_link.
  assert (Hstep : forall (m1 : gmap str (list str)) order1,
            order1 = Spec.first_seen (map snd (l ++ [(s, v)])) ->
            m1 !! v = Some (Spec.first_seen (Spec.labels_of v l)) ->
            (forall u, u <> v -> m1 !! u = m !! u) ->
            recorded (l ++ [(s, v)])
              (if bool_decide (s ∈ m1 !!! v) then (m1, order1)
               else (<[v := (m1 !!! v) ++ [s]]> m1, order1))).
  { intros m1 order1 Ho1 Hv1 Hother.
    assert (Hsubs : m1 !!! v = Spec.first_seen (Spec.labels_of v l)).
    { by rewrite lookup_total_alt, Hv1. }
    rewrite Hsubs.
    assert (Hurls : forall u, u ∈ map snd (l ++ [(s, v)]) <-> u = v \/ u ∈ map snd l).
    { intros u. rewrite map_app, elem_of_app; cbn.
      rewrite list_elem_of_singleton. tauto. }
    destruct (decide (s ∈ Spec.first_seen (Spec.labels_of v l))) as [Hs|Hs];
      [rewrite bool_decide_eq_true_2 by done
      |rewrite bool_decide_eq_false_2 by done];
      (split; [exact Ho1|]); intros u; cbn;
      destruct (decide (u = v)) as [->|Hne].
    - rewrite Hv1, bool_decide_eq_true_2 by (apply Hurls; auto).
      rewrite labels_of_snoc, bool_decide_eq_true_2 by done.
      rewrite first_seen_snoc, bool_decide_eq_true_2; [done|].
      by apply first_seen_elem.
    - rewrite Hother, Hm by done.
      rewrite labels_of_snoc, (bool_decide_eq_false_2 (v = u)) by congruence.
      rewrite (bool_decide_ext _ _ (Hurls u)).
      apply if_bool_decide_other; tauto.
    - rewrite lookup_insert_eq, bool_decide_eq_true_2 by (apply Hurls; auto).
      rewrite labels_of_snoc, (bool_decide_eq_true_2 (v = v)) by done.
      rewrite first_seen_snoc, bool_decide_eq_false_2; [done|].
      by rewrite <- first_seen_elem.
    - rewrite lookup_insert_ne, Hother, Hm by done.
      rewrite labels_of_snoc, (bool_decide_eq_false_2 (v = u)) by congruence.
      rewrite (bool_decide_ext _ _ (Hurls u)).
      apply if_bool_decide_other; tauto. }
  pose proof (Hm v) as Hv.
  destruct (decide (v ∈ map snd l)) as [Hin|Hin];
    [rewrite bool_decide_eq_true_2 in Hv by done
    |rewrite bool_decide_eq_false_2 in Hv by done]; rewrite Hv.
  - apply Hstep; [|done|done].
    rewrite map_app; cbn [map snd]. rewrite first_seen_snoc.
    by rewrite bool_decide_eq_true_2.
  - apply Hstep.
    + rewrite map_app; cbn [map snd]. rewrite first_seen_snoc.
      by rewrite bool_decide_eq_false_2, Ho.
    + by rewrite lookup_insert_eq, labels_of_absent.
    + intros u Hne. by rewrite lookup_insert_ne.
Qed.

Lemma fold_record_recorded (l : list (str * str)) :
  recorded l (fold_left (fun acc p => record_link p.1 p.2 acc) l (∅, [])).
Proof.
  induction l as [|[s v] l IH] using rev_ind.
  - split; [done|]. intros u. cbn. by rewrite lookup_empty.
  - rewrite fold_left_app. cbn. by apply record_link_recorded.
Qed.

Lemma collect_details_pairs base_url details acc :
  fold_left (collect_details base_url) details acc =
  fold_left (fun acc p => record_link p.1 p.2 acc)
            (pairs_read base_url details) acc.
Proof.
  revert acc. induction details as [|d details IH]; intros acc; [done|].
  cbn. rewrite fold_left_app, IH. f_equal.
  unfold collect_details. generalize (anchors d). clear.
  intros l. revert acc. induction l as [|a l IH]; intros acc; [done|].
  cbn. rewrite fold_left_app, IH. f_equal.
  by destruct a as [[|c h]|].
Qed.

(** C6. Link collection returns what the specification describes for the
    (sectionLabel, anchorURL) pairs it reads: the URLs in first-seen order,
    each once, each with the distinct labels under which it appeared, in
    order of appearance.  The page with "Dedications" (A) and "Aspirations"
    (A, B) gives [(A, [Dedications; Aspirations]); (B, [Aspirations])]; a
    page without sections, or whose sections have no links, gives []. *)
Theorem collect_text_links_first_seen (base_url : str)
    (details : list Details) (labels : list str) :
  let pairs := pairs_read base_url details in
  let links := _collect_text_links base_url details in
  links = Spec.collected pairs
  /\ map fst links = Spec.first_seen (map snd pairs)
  /\ NoDup (map fst links)
  /\ Forall (fun link => NoDup link.2
                         /\ forall s, s ∈ link.2 <-> (s, link.1) ∈ pairs) links
  /\ _collect_text_links base_url [] = []
  /\ _collect_text_links base_url
       (map (fun s => {| summary_text := s; anchors := [] |}) labels) = []
  /\ @_collect_text_links py_fragment scenario_base scenario_page =
       [ (url_A, [lit "Dedications"; lit "Aspirations"]);
         (url_B, [lit "Aspirations"]) ].
Proof.
  intros pairs links.
  assert (Heq : links = Spec.collected pairs).
  { unfold links, _collect_text_links.
    rewrite collect_details_pairs. fold pairs.
    pose proof (fold_record_recorded pairs) as Hrec.
    destruct (fold_left _ pairs _) as [m order].
    destruct Hrec as [Ho Hm]; cbn in Ho, Hm. subst order.
    unfold Spec.collected. apply map_ext_in. intros u Hu.
    apply list_elem_of_In in Hu. rewrite first_seen_elem in Hu.
    f_equal. rewrite lookup_total_alt, Hm.
    by rewrite bool_decide_eq_true_2. }
  assert (Hfst : map fst links = Spec.first_seen (map snd pairs)).
  { rewrite Heq. unfold Spec.collected. rewrite map_map; cbn. apply map_id. }
  split; [done|]. split; [done|]. split.
  { rewrite Hfst. apply first_seen_NoDup. }
  split.
  { rewrite Heq. unfold Spec.collected. apply Forall_forall.
    intros link Hlink. apply list_elem_of_In, in_map_iff in Hlink.
    destruct Hlink as (u & <- & _); cbn. split; [apply first_seen_NoDup|].
    intros s. rewrite first_seen_elem. unfold Spec.labels_of.
    rewrite list_elem_of_In, in_map_iff. split.
    - intros ([s' v] & <- & Hin). apply filter_In in Hin as [Hin Hv].
      apply bool_decide_eq_true in Hv. cbn in *. subst v.
      by apply list_elem_of_In.
    - intros Hin. exists (s, u). split; [done|].
      apply filter_In. split; [by apply list_elem_of_In|].
      by apply bool_decide_eq_true. }
  split; [done|]. split.
  { unfold _collect_text_links. rewrite collect_details_pairs.
    replace (pairs_read _ _) with (@nil (str * str)); [done|].
    induction labels as [|s labels IH]; [done|]. by cbn. }
  by vm_compute.
Qed.

End Collection.

(** ** The JSON-to-folder transform *)

Section JsonTransform.

Import JsonToFolder.

Lemma fold_verses (key : str) (verses : list (gmap str str)) (acc : str) :
  fold_left
    (fun out verse =>
       match get verse key with
       | [] => out
       | _ :: _ => out ++ (verse !!! key) ++ newline
       end)
    verses acc
  = acc ++ verse_lines key verses.
Proof.
  revert acc. induction verses as [|verse verses IH]; intros acc; cbn.
  - by rewrite app_nil_r.
  - rewrite IH. unfold get, verse_lines.
    destruct (verse !! key) as [[|c v]|] eqn:E; cbn;
      rewrite ?E; cbn; [reflexivity| |reflexivity].
    rewrite (lookup_total_correct _ _ _ E). by rewrite <- !app_assoc.
Qed.

Lemma get_bo_text_lines (data : Data) (t : str) :
  get_bo_text data t = t ++ newline ++ verse_lines (lit "bo") (text data).
Proof. unfold get_bo_text. by rewrite fold_verses, <- app_assoc. Qed.

Lemma get_en_text_lines (data : Data) (t : str) :
  get_en_text data t = t ++ newline ++ verse_lines (lit "en") (text data).
Proof. unfold get_en_text. by rewrite fold_verses, <- app_assoc. Qed.

Lemma verse_lines_app (key : str) (l1 l2 : list (gmap str str)) :
  verse_lines key (l1 ++ l2) = verse_lines key l1 ++ verse_lines key l2.
Proof. unfold verse_lines. apply flat_map_app. Qed.

(** C9. For the record with titles T and E and the verses [{bo: a, en: b}]
    and [{bo: c}], the transform writes, in the folder T below the output
    directory, bo.txt with "T\na\nc\n" and en.txt with "E\nb\n", and leaves
    every other file as it was. *)
Theorem json_to_folder_scenario (output_dir : list str)
    (fs : gmap (list str * str) str) :
  let folder := output_dir ++ [lit "T"] in
  exists fs',
    json_to_folder scenario_record output_dir fs = Some fs'
    /\ fs' !! (folder, lit "bo.txt")
       = Some (lit "T" ++ newline ++ lit "a" ++ newline ++ lit "c" ++ newline)
    /\ fs' !! (folder, lit "en.txt")
       = Some (lit "E" ++ newline ++ lit "b" ++ newline)
    /\ forall p, p <> (folder, lit "bo.txt") -> p <> (folder, lit "en.txt") ->
         fs' !! p = fs !! p.
Proof.
  intros folder. eexists. split; [reflexivity|].
  unfold create_folder. fold folder. split; [|split].
  - rewrite lookup_insert_ne by (intros [=E]; vm_compute in E; discriminate).
    by rewrite lookup_insert_eq.
  - by rewrite lookup_insert_eq.
  - intros p Hbo Hen. by rewrite !lookup_insert_ne.
Qed.

(** C10. A verse whose 'bo' (or 'en') key maps to the empty string adds no
    line to bo.txt (en.txt): the text is the one obtained with the key
    removed from that verse, and in general the title line followed by the
    present, non-empty values only. *)
Theorem empty_verse_contributes_nothing (t : str) (verse : gmap str str)
    (before after : list (gmap str str)) (data : Data) :
  get_bo_text {| title := title data;
                 text := before ++ <[lit "bo" := empty_str]> verse :: after |} t
  = get_bo_text {| title := title data;
                   text := before ++ delete (lit "bo") verse :: after |} t
  /\ get_en_text {| title := title data;
                    text := before ++ <[lit "en" := empty_str]> verse :: after |} t
     = get_en_text {| title := title data;
                      text := before ++ delete (lit "en") verse :: after |} t
  /\ get_bo_text data t = t ++ newline ++ verse_lines (lit "bo") (text data)
  /\ get_en_text data t = t ++ newline ++ verse_lines (lit "en") (text data)
  /\ verse_lines (lit "bo") [<[lit "bo" := empty_str]> verse] = []
  /\ verse_lines (lit "en") [<[lit "en" := empty_str]> verse] = [].
Proof.
  assert (Hskip : forall key,
            verse_lines key (before ++ <[key := empty_str]> verse :: after)
            = verse_lines key (before ++ delete key verse :: after)).
  { intros key. rewrite !verse_lines_app. f_equal. cbn.
    by rewrite lookup_insert_eq, lookup_delete_eq. }
  rewrite !get_bo_text_lines, !get_en_text_lines; cbn [text].
  rewrite !Hskip. repeat split; cbn; by rewrite lookup_insert_eq.
Qed.

End JsonTransform.

(** ** The uniqueness resolver *)

Section UniquePath.

Lemma lit_inj (s1 s2 : string) : lit s1 = lit s2 -> s1 = s2.
Proof.
  unfold lit. intros E.
  apply (f_equal (map ascii_of_N)) in E.
  rewrite !map_map in E.
  assert (Hid : forall l, map (fun a => ascii_of_N (N_of_ascii a)) l = l).
  { intros l. rewrite <- (map_id l) at 2. apply map_ext.
    intros a. apply ascii_N_embedding. }
  rewrite !Hid in E.
  apply (f_equal string_of_list_ascii) in E.
  by rewrite !string_of_list_ascii_of_string in E.
Qed.

Lemma str_of_nat_inj (n m : nat) : str_of_nat n = str_of_nat m -> n = m.
Proof.
  unfold str_of_nat. intros E. apply lit_inj in E.
  apply (f_equal NilEmpty.uint_of_string) in E.
  rewrite !NilEmpty.usu in E. injection E as E.
  apply (f_equal Nat.of_uint) in E.
  by rewrite !DecimalNat.Unsigned.of_to in E.
Qed.

Lemma candidate_inj (path : Path) (n m : nat) :
  candidate path n = candidate path m -> n = m.
Proof.
  unfold candidate, with_name. intros E.
  apply (f_equal snd) in E. cbn [snd] in E.
  apply app_inv_head, app_inv_head in E.
  rewrite !(app_assoc (str_of_nat _)) in E.
  apply app_inv_tail, app_inv_tail in E.
  by apply str_of_nat_inj.
Qed.


Lemma exists_lookup (w : World) (p : Path) :
  exists_ w p = false <-> files w !! p = None.
Proof.
  unfold exists_. rewrite bool_decide_eq_false, <- eq_None_not_Some. done.
Qed.

(** What the loop has seen when it returns a path. *)
Lemma unique_path_loop_some w path n fuel p :
  unique_path_loop w path n fuel = Some p ->
  exists k, (k < fuel)%nat /\ p = candidate path (n + k)
            /\ exists_ w p = false
            /\ forall j, (j < k)%nat -> exists_ w (candidate path (n + j)) = true.
Proof.
  revert n. induction fuel as [|fuel IH]; intros n; cbn; [done|].
  destruct (exists_ w (candidate path n)) eqn:E; cbn.
  - intros Hloop. apply IH in Hloop as (k & Hk & -> & Hfree & Hbusy).
    exists (S k). replace (n + S k)%nat with (n + 1 + k)%nat by lia.
    repeat split; [lia|done|].
    intros [|j] Hj.
    + by rewrite Nat.add_0_r.
    + replace (n + S j)%nat with (n + 1 + j)%nat by lia. apply Hbusy. lia.
  - intros [= <-]. exists 0%nat. rewrite Nat.add_0_r.
    repeat split; [lia|done|]. intros j Hj. lia.
Qed.

(** When the loop runs out of fuel, every candidate it tried exists. *)
Lemma unique_path_loop_none w path n fuel :
  unique_path_loop w path n fuel = None ->
  forall j, (j < fuel)%nat -> exists_ w (candidate path (n + j)) = true.
Proof.
  revert n. induction fuel as [|fuel IH]; intros n; cbn; [lia|].
  destruct (exists_ w (candidate path n)) eqn:E; cbn; [|done].
  intros Hloop [|j] Hj.
  - by rewrite Nat.add_0_r.
  - replace (n + S j)%nat with (n + 1 + j)%nat by lia. apply IH; [done|lia].
Qed.


(** There are more candidates than files: they cannot all exist. *)
Lemma candidates_not_all_taken w path n :
  ~ forall j, (j < S (size (files w)))%nat ->
              exists_ w (candidate path (n + j)) = true.
Proof.
  intros Hall.
  set (l := (fun j => candidate path (n + j)) <$> seq 0 (S (size (files w)))).
  assert (Hnd : NoDup l).
  { apply NoDup_fmap_2; [|apply NoDup_seq].
    intros i j E. apply candidate_inj in E. lia. }
  assert (Hsub : (list_to_set l : gset Path) ⊆ dom (files w)).
  { intros p Hp. apply elem_of_list_to_set, list_elem_of_fmap in Hp.
    destruct Hp as (j & -> & Hj). apply elem_of_seq in Hj.
    apply elem_of_dom. specialize (Hall j ltac:(lia)).
    unfold exists_ in Hall. by apply bool_decide_eq_true in Hall. }
  apply subseteq_size in Hsub.
  rewrite size_list_to_set, size_dom in Hsub by done.
  unfold l in Hsub. rewrite length_fmap, length_seq in Hsub. lia.
Qed.

Lemma unique_path_loop_returns w path n :
  is_Some (unique_path_loop w path n (S (size (files w)))).
Proof.
  destruct (unique_path_loop _ _ _ _) eqn:E; [done|].
  destruct (candidates_not_all_taken w path n).
  by apply unique_path_loop_none.
Qed.

(** The resolver always returns, and what it returns does not exist. *)
Lemma unique_path_returns w path :
  exists p, _unique_path w path = Some p /\ files w !! p = None
            /\ parent p = parent path.
Proof.
  unfold _unique_path. destruct (exists_ w path) eqn:E; cbn.
  - destruct (unique_path_loop_returns w path 1) as [p Hp].
    exists p. split; [done|].
    apply unique_path_loop_some in Hp as (k & _ & -> & Hfree & _).
    split; [by apply exists_lookup|done].
  - exists path. split; [done|]. split; [by apply exists_lookup|done].
Qed.



End UniquePath.

(** ** The completion poller *)

Section Poller.

Context `{PyLib}.

Lemma max_by_key_elem (best : Path * Z) (l : list (Path * Z)) :
  max_by_key best l ∈ best.1 :: l.*1.
Proof.
  revert best. induction l as [|pk l IH]; intros best; cbn.
  - apply list_elem_of_here.
  - destruct (_ <? _)%Z.
    + apply list_elem_of_further, IH.
    + specialize (IH best). cbn in IH.
      apply elem_of_cons in IH as [->|IH];
        [apply list_elem_of_here|by do 2 apply list_elem_of_further].
Qed.

Lemma max_mtime_elem (mtime : Path -> option Z) (epubs : list Path)
    (target : Path) :
  max_mtime mtime epubs = Some target -> target ∈ epubs.
Proof.
  unfold max_mtime. destruct (mapM _ epubs) as [[|pk pks]|] eqn:E; [done| |done].
  intros [= <-]. apply mapM_Some_1 in E.
  assert (Hfst : (pk :: pks).*1 = epubs).
  { clear -E. induction E as [|p q l k Hpq _ IH]; [done|].
    cbn. destruct (mtime p); [|done]. injection Hpq as <-. cbn. by f_equal. }
  rewrite <- Hfst. apply max_by_key_elem.
Qed.

Lemma has_suffix_true (ext : str) (p : Path) :
  has_suffix ext p = true <-> lower (suffix p) = ext.
Proof. unfold has_suffix. apply bool_decide_eq_true. Qed.

(** What a pass that is [ready] has in front of it. *)
Lemma ready_true (before_set : gset Path) (o : Poll) :
  ready before_set o = true ->
  (forall q, q ∈ listing o -> lower (suffix q) ≠ lit ".crdownload")
  /\ forall target,
       target ∈ List.filter (has_suffix (lit ".epub"))
                  (new_files before_set (listing o)) ->
       target ∈ listing o /\ (target ∉ before_set)
       /\ lower (suffix target) = lit ".epub".
Proof.
  unfold ready. rewrite andb_true_iff, !negb_true_iff. intros [_ Htemp].
  split.
  - intros q Hq Hsuffix.
    assert (any (has_suffix (lit ".crdownload")) (listing o) = true);
      [|congruence].
    apply any_iff. exists q. split; [done|]. by apply has_suffix_true.
  - intros target Ht.
    apply list_elem_of_In, filter_In in Ht as [Ht Hepub].
    apply filter_In in Ht as [Ht Hnew].
    apply bool_decide_eq_true in Hnew. apply has_suffix_true in Hepub.
    split; [by apply list_elem_of_In|done].
Qed.

(** One pass of the loop. *)
Lemma wait_for_download_pass (before_set : gset Path) (timeout : Z)
    (o : Poll) (polls : list Poll) :
  _wait_for_download before_set timeout (o :: polls) =
  let again := _wait_for_download before_set timeout polls in
  if (clock o <? timeout)%Z then
    if ready before_set o then
      match max_mtime (st_mtime o)
              (List.filter (has_suffix (lit ".epub"))
                 (new_files before_set (listing o))) with
      | None => Raised
      | Some target =>
          match st_size1 o target with
          | None => again
          | Some size1 =>
              if still_exists o target then
                match st_size2 o target with
                | Some size2 =>
                    if (size2 =? size1)%Z then Return (Some target) else again
                | None => again
                end
              else again
          end
      end
    else again
  else Return None.
Proof. reflexivity. Qed.

(** C3. The poller returns [None] when no pass inside the timeout window
    sees a new ".epub" file with no ".crdownload" file listed; and when it
    returns a path, some pass inside the window saw that path as a new file
    with the ".epub" suffix, saw no ".crdownload" file in the listing, and
    read the same size for it twice, the file still existing at the second
    sample.  The loop ends once the clock has passed the timeout. *)
Theorem wait_for_download_result (before_set : gset Path) (timeout : Z) :
  (forall pre o post,
      Forall (fun p => ready before_set p = false) pre ->
      (timeout <= clock o)%Z ->
      _wait_for_download before_set timeout (pre ++ o :: post) = Return None)
  /\ (forall polls target,
        _wait_for_download before_set timeout polls = Return (Some target) ->
        exists o size,
          o ∈ polls /\ (clock o < timeout)%Z
          /\ target ∈ listing o /\ (target ∉ before_set)
          /\ lower (suffix target) = lit ".epub"
          /\ (forall q, q ∈ listing o -> lower (suffix q) ≠ lit ".crdownload")
          /\ st_size1 o target = Some size
          /\ still_exists o target = true
          /\ st_size2 o target = Some size)
  /\ (forall polls o,
        o ∈ polls -> (timeout <= clock o)%Z ->
        _wait_for_download before_set timeout polls <> Diverged).
Proof.
  split; [|split].
  - intros pre o post Hpre Hclock.
    induction Hpre as [|p pre Hp _ IH]; cbn [app];
      rewrite wait_for_download_pass; cbv zeta.
    + by rewrite (proj2 (Z.ltb_ge _ _) Hclock).
    + destruct (clock p <? timeout)%Z; [|done]. by rewrite Hp.
  - intros polls target. induction polls as [|o polls IH]; [done|].
    rewrite wait_for_download_pass; cbv zeta.
    destruct (clock o <? timeout)%Z eqn:Hclock; [|done].
    apply Z.ltb_lt in Hclock.
    assert (Hlater : _wait_for_download before_set timeout polls
                     = Return (Some target) ->
                     exists o' size,
                       o' ∈ o :: polls /\ (clock o' < timeout)%Z
                       /\ target ∈ listing o' /\ (target ∉ before_set)
                       /\ lower (suffix target) = lit ".epub"
                       /\ (forall q, q ∈ listing o' ->
                             lower (suffix q) ≠ lit ".crdownload")
                       /\ st_size1 o' target = Some size
                       /\ still_exists o' target = true
                       /\ st_size2 o' target = Some size).
    { intros Hr. destruct (IH Hr) as (o' & size & Hin & Hrest).
      exists o', size. split; [by apply list_elem_of_further|done]. }
    pose proof (ready_true before_set o) as Hready.
    destruct (ready before_set o); [|done].
    destruct (Hready eq_refl) as [Htemp Hnew].
    destruct (max_mtime _ _) as [t|] eqn:Hmax; [|done].
    apply max_mtime_elem, Hnew in Hmax as (Hin & Hfresh & Hepub).
    destruct (st_size1 o t) as [size1|] eqn:Hs1; [|done].
    destruct (still_exists o t) eqn:Hex; [|done].
    destruct (st_size2 o t) as [size2|] eqn:Hs2; [|done].
    destruct (size2 =? size1)%Z eqn:Hsame; [|done].
    apply Z.eqb_eq in Hsame. subst size2. intros [= <-].
    exists o, size1. split; [apply list_elem_of_here|done].
  - intros polls o Hin Hclock.
    induction polls as [|p polls IH]; [by apply elem_of_nil in Hin|].
    rewrite wait_for_download_pass; cbv zeta.
    apply elem_of_cons in Hin as [<-|Hin].
    + by rewrite (proj2 (Z.ltb_ge _ _) Hclock).
    + specialize (IH Hin).
      repeat (match goal with
              | |- context [if ?b then _ else _] => destruct b
              | |- context [match ?x with Some _ => _ | None => _ end] =>
                  destruct x
              end; try done).
Qed.

(** The two runs: a download that completes at the second pass, and one
    whose in-progress file never clears. *)
Example wait_for_download_runs :
  @_wait_for_download py_fragment {[ sink "old.epub" ]} 120 polls_complete
  = Return (Some (sink "new.epub"))
  /\ @_wait_for_download py_fragment {[ sink "old.epub" ]} 120 polls_stuck
     = Return None.
Proof. split; by vm_compute. Qed.

End Poller.

(** ** Folder names from topic labels *)

Section Stripping.

Lemma lstrip_no_space (s : str) : no_space_at_start (lstrip s) = true.
Proof.
  induction s as [|c s IH]; cbn; [done|].
  destruct (isspace c) eqn:E; [done|]. cbn. by rewrite E.
Qed.

Lemma lstrip_id (s : str) : no_space_at_start s = true -> lstrip s = s.
Proof.
  destruct s as [|c s]; cbn; [done|].
  rewrite negb_true_iff. by intros ->.
Qed.

Lemma lstrip_snoc (l : str) (c : N) :
  isspace c = false -> exists u, lstrip (l ++ [c]) = u ++ [c].
Proof.
  intros Hc. induction l as [|d l [u IH]]; cbn.
  - rewrite Hc. by exists [].
  - destruct (isspace d); [by exists u|]. by exists (d :: l).
Qed.

Lemma strip_stripped (s : str) : stripped (strip s) = true.
Proof.
  unfold stripped, strip, rstrip. rewrite rev_involutive, lstrip_no_space.
  rewrite andb_true_r.
  pose proof (lstrip_no_space s) as Hstart.
  destruct (lstrip s) as [|c y]; cbn in *; [done|].
  apply negb_true_iff in Hstart.
  destruct (lstrip_snoc (rev y) c Hstart) as [u ->].
  rewrite rev_app_distr. cbn. by rewrite Hstart.
Qed.

Lemma strip_id (s : str) : stripped s = true -> strip s = s.
Proof.
  unfold stripped, strip, rstrip. rewrite andb_true_iff. intros [Hs Hr].
  by rewrite (lstrip_id s Hs), (lstrip_id _ Hr), rev_involutive.
Qed.

Lemma filter_all {A} (p : A -> bool) (l : list A) :
  forallb p l = true -> List.filter p l = l.
Proof.
  induction l as [|x l IH]; cbn; [done|].
  rewrite andb_true_iff. intros [-> Hl]. by rewrite IH.
Qed.

End Stripping.

Section SafeName.

Context `{PyLib}.

(** Three facts about Unicode's NFC: it is idempotent, it puts no white
    space at the ends of a string that has none, and it leaves ASCII text
    as it is. *)
Hypothesis nfc_idempotent :
  forall s, normalize_NFC (normalize_NFC s) = normalize_NFC s.
Hypothesis nfc_ends :
  forall s, stripped s = true -> stripped (normalize_NFC s) = true.
Hypothesis nfc_ascii :
  forall s, is_ascii s = true -> normalize_NFC s = s.

(** C5, as amended.  Sanitizing twice gives what sanitizing once gives, for
    every label whose sanitized form holds only characters that the filter
    keeps.  (NFC runs after the filter and may bring in a character that the
    filter drops; the second pass then drops it.) *)
Theorem safe_name_idempotent_on_kept (L : str) :
  forallb keep (safe_name L) = true ->
  safe_name (safe_name L) = safe_name L.
Proof.
  intros Hkept.
  assert (Hfix : forall r, r <> [] -> forallb keep r = true ->
                           stripped r = true -> normalize_NFC r = r ->
                           safe_name r = r).
  { intros r Hne Hk Hs Hn. unfold safe_name.
    rewrite (filter_all _ _ Hk), (strip_id _ Hs), Hn.
    by destruct r. }
  unfold safe_name in *.
  destruct (normalize_NFC (strip (List.filter keep L))) as [|c t] eqn:E.
  - apply Hfix; [done|done|by vm_compute|]. by apply nfc_ascii.
  - apply Hfix; [done|done| |].
    + rewrite <- E. apply nfc_ends, strip_stripped.
    + rewrite <- E. apply nfc_idempotent.
Qed.

End SafeName.

Section Fragment.

Lemma fragment_nfc_idempotent (s : str) :
  fragment_nfc (fragment_nfc s) = fragment_nfc s.
Proof.
  unfold fragment_nfc. induction s as [|c s IH]; cbn; [done|].
  rewrite flat_map_app, IH. f_equal.
  unfold fragment_nfc_char. destruct (c =? 0x958) eqn:E; cbn; [done|].
  by rewrite E.
Qed.

Lemma flat_map_no_space (g : N -> str) (s : str) :
  (forall c, isspace c = false -> exists d u, g c = d :: u /\ isspace d = false) ->
  no_space_at_start s = true -> no_space_at_start (flat_map g s) = true.
Proof.
  intros Hg. destruct s as [|c s]; cbn; [done|].
  rewrite negb_true_iff. intros Hc.
  destruct (Hg c Hc) as (d & u & -> & Hd). cbn. by rewrite Hd.
Qed.

Lemma rev_flat_map {A B} (g : A -> list B) (l : list A) :
  rev (flat_map g l) = flat_map (fun x => rev (g x)) (rev l).
Proof.
  induction l as [|x l IH]; cbn; [done|].
  by rewrite rev_app_distr, IH, flat_map_app; cbn; rewrite app_nil_r.
Qed.

Lemma fragment_nfc_ends (s : str) :
  stripped s = true -> stripped (fragment_nfc s) = true.
Proof.
  unfold stripped, fragment_nfc. rewrite !andb_true_iff. intros [Hs Hr].
  split.
  - apply flat_map_no_space; [|done]. intros c Hc. unfold fragment_nfc_char.
    destruct (c =? 0x958); eauto.
  - rewrite rev_flat_map. apply flat_map_no_space; [|done].
    intros c Hc. unfold fragment_nfc_char.
    destruct (c =? 0x958); cbn; eauto.
Qed.

Lemma fragment_nfc_ascii (s : str) :
  is_ascii s = true -> fragment_nfc s = s.
Proof.
  unfold is_ascii, fragment_nfc. induction s as [|c s IH]; cbn; [done|].
  rewrite andb_true_iff, N.ltb_lt. intros [Hc Hs]. rewrite (IH Hs).
  unfold fragment_nfc_char.
  destruct (N.eqb_spec c 0x958); [lia|done].
Qed.

(** A label that sanitization leaves alone after the first pass. *)
Lemma safe_name_idempotent_witness :
  let L := lit "Prayers & Dedications (2)!" in
  forallb (@keep py_fragment) (@safe_name py_fragment L) = true
  /\ @safe_name py_fragment (@safe_name py_fragment L)
     = @safe_name py_fragment L.
Proof.
  intros L. split; [by vm_compute|].
  apply (@safe_name_idempotent_on_kept py_fragment
           fragment_nfc_idempotent fragment_nfc_ends fragment_nfc_ascii L).
  by vm_compute.
Defined.

(** C5, as stated, fails: the label U+0958 (DEVANAGARI LETTER QA) passes the
    filter, NFC turns it into U+0915 U+093C, and the second pass drops
    U+093C, which is not alphanumeric. *)
Lemma safe_name_not_idempotent :
  @safe_name py_fragment [0x958] = [0x915; 0x93C]
  /\ @safe_name py_fragment (@safe_name py_fragment [0x958]) = [0x915]
  /\ @safe_name py_fragment (@safe_name py_fragment [0x958])
     <> @safe_name py_fragment [0x958].
Proof. repeat split; by vm_compute. Qed.

End Fragment.

(** ** Calls: how they compose *)

Section Calls.

Lemma returns_ret {A} (a : A) (w : World) (post : A -> World -> Prop) :
  post a w -> returns (ret a) w post.
Proof. intros Hpost. by exists a, w. Qed.

Lemma returns_bind {A B} (c : M A) (k : A -> M B) (w : World)
    (post : B -> World -> Prop) :
  returns c w (fun a w1 => returns (k a) w1 post) ->
  returns (x <~ c ;; k x) w post.
Proof.
  intros (a & w1 & Hc & b & w2 & Hk & Hpost).
  exists b, w2. split; [|done]. unfold bind. by rewrite Hc.
Qed.

Lemma returns_weaken {A} (c : M A) (w : World)
    (post post' : A -> World -> Prop) :
  returns c w post -> (forall a w', post a w' -> post' a w') ->
  returns c w post'.
Proof. intros (a & w' & Hc & Hpost) Himp. exists a, w'. auto. Qed.

Lemma returns_inv {A} (c : M A) (w : World) (post : A -> World -> Prop)
    (a : A) (w' : World) :
  returns c w post -> c w = Return (a, w') -> post a w'.
Proof. intros (a' & w'' & Hc & Hpost) Hr. rewrite Hr in Hc. by injection Hc as -> ->. Qed.

Lemma ensures_ret {A} (a : A) (w : World) (post : A -> World -> Prop) :
  post a w -> ensures (ret a) w post.
Proof. intros Hpost a' w' [= <- <-]. done. Qed.

Lemma ensures_bind {A B} (c : M A) (k : A -> M B) (w : World)
    (post : B -> World -> Prop) :
  ensures c w (fun a w1 => ensures (k a) w1 post) ->
  ensures (x <~ c ;; k x) w post.
Proof.
  intros Hc b w'. unfold bind.
  destruct (c w) as [[a w1]| |] eqn:E; [|done..].
  intros Hk. exact (Hc a w1 E b w' Hk).
Qed.

Lemma ensures_weaken {A} (c : M A) (w : World)
    (post post' : A -> World -> Prop) :
  ensures c w post -> (forall a w', post a w' -> post' a w') ->
  ensures c w post'.
Proof. intros Hc Himp a w' Hr. auto. Qed.

Lemma ensures_raised {A} (c : M A) (w : World) (post : A -> World -> Prop) :
  c w = Raised -> ensures c w post.
Proof. intros Hc a w' Hr. congruence. Qed.

(** A call that returns, with what it ensures. *)
Lemma returns_ensures {A} (c : M A) (w : World)
    (post : A -> World -> Prop) :
  returns c w post -> ensures c w post.
Proof. intros Hc a w'. by apply returns_inv. Qed.

Lemma ensures_returns {A} (c : M A) (w : World)
    (post : A -> World -> Prop) :
  returns c w (fun _ _ => True) -> ensures c w post -> returns c w post.
Proof. intros (a & w' & Hc & _) He. exists a, w'. auto. Qed.

Lemma may_raise_bind {B} (raises : bool) (k : M B) (w : World) :
  (_ <~ may_raise raises ;; k) w = if raises then Raised else k w.
Proof. unfold bind, may_raise. by destruct raises. Qed.

Lemma resolve_returns (path : Path) (w : World) :
  returns (resolve path) w
    (fun p w' => w' = w /\ files w !! p = None /\ parent p = parent path
                 /\ _unique_path w path = Some p).
Proof.
  destruct (unique_path_returns w path) as (p & Hp & Hfree & Hparent).
  exists p, w. unfold resolve. by rewrite Hp.
Qed.

Lemma try_returns (op : World -> option World) (w : World) :
  returns (try_ op) w
    (fun moved w' => if moved then op w = Some w' else op w = None /\ w' = w).
Proof.
  unfold returns, try_. destruct (op w) as [w'|] eqn:E.
  - by exists true, w'.
  - by exists false, w.
Qed.

(** What the browser leaves: nothing below a folder, nothing over a file. *)
Lemma keeps_refl (w : World) : keeps w w.
Proof. by intros p c. Qed.

Lemma keeps_trans (w1 w2 w3 : World) :
  keeps w1 w2 -> keeps w2 w3 -> keeps w1 w3.
Proof. intros H12 H23 p c Hp. by apply H23, H12. Qed.

Lemma keeps_free (w w' : World) (p : Path) :
  keeps w w' -> files w' !! p = None -> files w !! p = None.
Proof.
  intros Hkeep Hfree. destruct (files w !! p) as [c|] eqn:E; [|done].
  apply Hkeep in E. congruence.
Qed.

Lemma keeps_insert (w w' : World) (p : Path) (data : bytes) :
  files w !! p = None -> files w' = <[p := data]> (files w) -> keeps w w'.
Proof.
  intros Hfree Hfiles q c Hq. rewrite Hfiles, lookup_insert_ne; [done|].
  congruence.
Qed.

Lemma leave_keeps (remains : list (str * bytes)) (w : World) :
  keeps w (leave remains w).
Proof. intros p c Hp. cbn. by apply lookup_union_Some_l. Qed.

Lemma leave_new (remains : list (str * bytes)) (w : World) (p : Path)
    (c : bytes) :
  files (leave remains w) !! p = Some c ->
  files w !! p = Some c
  \/ exists n, p = joinpath [] n /\ (n, c) ∈ remains.
Proof.
  cbn. intros [Hp | [_ Hp]]%lookup_union_Some_raw; [by left|right].
  apply elem_of_list_to_map_2, list_elem_of_fmap in Hp as ([n c'] & [= -> ->] & Hin).
  by exists n.
Qed.

Lemma leave_folder (remains : list (str * bytes)) (w : World) (p : Path) :
  parent p <> [] -> files (leave remains w) !! p = files w !! p.
Proof.
  intros Hp. cbn. apply lookup_union_l.
  destruct (list_to_map _ !! p) as [c|] eqn:E; [|done].
  apply elem_of_list_to_map_2, list_elem_of_fmap in E as ([n c'] & [= -> ->] & _).
  done.
Qed.

(** What comes back from the poller. *)
Lemma wait_new_file_exactly (dl : option (str * bytes)) (raises : bool)
    (remains : list (str * bytes)) (w : World) :
  wait_new_file dl raises remains w =
  match dl with
  | Some (n, data) =>
      match files w !! joinpath [] n with
      | None =>
          Return (Some (joinpath [] n),
                  {| files := <[joinpath [] n := data]> (files w);
                     events := events w |})
      | Some _ => no_new_file raises remains w
      end
  | None => no_new_file raises remains w
  end.
Proof.
  unfold wait_new_file. destruct dl as [[n data]|]; [|done].
  destruct (files w !! joinpath [] n) as [c|] eqn:E.
  - assert (Hex : exists_ w (joinpath [] n) = true).
    { unfold exists_. apply bool_decide_eq_true. by rewrite E. }
    by rewrite Hex.
  - by rewrite (proj2 (exists_lookup w _) E).
Qed.

Lemma visited_snoc (es : list Event) (e : Event) :
  visited (es ++ [e]) =
  visited es ++ match e with Visit url => [url] | _ => [] end.
Proof. unfold visited. rewrite omap_app. by destruct e. Qed.

Lemma quiet_ret {A} (a : A) : quiet (ret a).
Proof. intros w. by apply ensures_ret. Qed.

Lemma quiet_bind {A B} (c : M A) (k : A -> M B) :
  quiet c -> (forall a, quiet (k a)) -> quiet (x <~ c ;; k x).
Proof.
  intros Hc Hk w. apply ensures_bind.
  apply (ensures_weaken _ _ _ _ (Hc w)). intros a w1 Hv.
  apply (ensures_weaken _ _ _ _ (Hk a w1)). intros b w2 Hv'. congruence.
Qed.

Lemma quiet_may_raise (raises : bool) : quiet (may_raise raises).
Proof. intros w a w'. unfold may_raise. destruct raises; [done|]. by intros [= _ <-]. Qed.

Lemma quiet_resolve (path : Path) : quiet (resolve path).
Proof.
  intros w. apply returns_ensures.
  apply (returns_weaken _ _ _ _ (resolve_returns path w)).
  by intros p w' (-> & _).
Qed.

Lemma quiet_try_replace (refused : bool) (src dst : Path) :
  quiet (try_ (unless_refused refused (replace src dst))).
Proof.
  intros w. apply returns_ensures.
  apply (returns_weaken _ _ _ _ (try_returns _ w)).
  intros [] w'; [|by intros [_ ->]].
  unfold unless_refused, replace. destruct refused; [done|].
  destruct (files w !! src); [|done].
  intros [= <-]. cbn. by rewrite visited_snoc, app_nil_r.
Qed.

Lemma quiet_try_copy2 (how : Attempt) (src dst : Path) :
  quiet (try_copy2 how src dst).
Proof.
  intros w. destruct how as [|[part|]]; cbn [try_copy2].
  - apply returns_ensures.
    apply (returns_weaken _ _ _ _ (try_returns _ w)).
    intros [] w'; [|by intros [_ ->]].
    unfold copy2. destruct (files w !! src); [|done].
    intros [= <-]. cbn. by rewrite visited_snoc, app_nil_r.
  - by intros a w' [= _ <-].
  - by intros a w' [= _ <-].
Qed.

Lemma quiet_wait_new_file (dl : option (str * bytes)) (raises : bool)
    (remains : list (str * bytes)) :
  quiet (wait_new_file dl raises remains).
Proof.
  assert (Hno : quiet (no_new_file raises remains)).
  { intros w a w'. unfold no_new_file. destruct raises; [done|].
    by intros [= _ <-]. }
  intros w a w'. rewrite wait_new_file_exactly.
  destruct dl as [[n data]|]; [|apply Hno].
  destruct (files w !! joinpath [] n); [apply Hno|]. by intros [= _ <-].
Qed.

Lemma quiet_for_each {A} (body : A -> M unit) (l : list A) :
  (forall x, quiet (body x)) -> quiet (for_each body l).
Proof.
  intros Hbody. induction l as [|x l IH]; cbn.
  - apply quiet_ret.
  - apply quiet_bind; [apply Hbody|]. by intros _.
Qed.

End Calls.

(** ** The run coordinator *)

Section RunCoordinator.

Context `{PyLib}.

Lemma quiet_place_primary (env : PageEnv) (downloaded : Path)
    (subfolder : option str) :
  quiet (place_primary env downloaded subfolder).
Proof.
  destruct subfolder as [[|c s]|]; cbn; try apply quiet_ret.
  apply quiet_bind; [apply quiet_may_raise|]. intros _.
  apply quiet_bind; [apply quiet_resolve|]. intros target.
  apply quiet_bind; [apply quiet_try_replace|]. intros moved. apply quiet_ret.
Qed.

Lemma quiet_copy_to_language (env : PageEnv) (final_path : Path)
    (lang : option str) :
  quiet (copy_to_language env final_path lang).
Proof.
  destruct lang as [l|]; cbn; [|apply quiet_ret].
  apply quiet_bind; [apply quiet_resolve|]. intros target.
  apply quiet_bind; [apply quiet_try_copy2|]. intros _. apply quiet_ret.
Qed.

Lemma quiet_fetch_tibetan (env : PageEnv) (lang : option str) :
  quiet (fetch_tibetan env lang).
Proof.
  unfold fetch_tibetan. case_bool_decide; [|apply quiet_ret].
  destruct (_ && _); [|apply quiet_ret].
  apply quiet_bind; [apply quiet_wait_new_file|].
  intros [tib_downloaded|]; [|apply quiet_ret].
  apply quiet_bind; [apply quiet_resolve|]. intros target.
  apply quiet_bind; [apply quiet_try_replace|]. intros _. apply quiet_ret.
Qed.

Lemma quiet_copy_to_extra (env : PageEnv) (final_path : Path) (extra : str) :
  quiet (copy_to_extra env final_path extra).
Proof.
  unfold copy_to_extra.
  apply quiet_bind; [apply quiet_may_raise|]. intros _.
  apply quiet_bind; [apply quiet_resolve|]. intros target.
  apply quiet_bind; [apply quiet_try_copy2|]. intros _. apply quiet_ret.
Qed.

(** The page the orchestration was called for is the one page it visits. *)
Lemma orchestration_visits (env : PageEnv) (url : str)
    (subfolder : option str) (w : World) :
  ensures (_download_epub_from_text_page env url subfolder) w
    (fun _ w' => visited (events w') = visited (events w) ++ [url]).
Proof.
  unfold ensures, _download_epub_from_text_page.
  destruct (get_raises env); [done|].
  assert (Hlog : visited (events (log (Visit url) w))
                 = visited (events w) ++ [url]) by apply visited_snoc.
  destruct (downloads_block env); cbn [negb]; [|by intros r w' [= _ <-]].
  destruct (epub_btn env); cbn [negb]; [|by intros r w' [= _ <-]].
  destruct (click_ok env); cbn [negb]; [|by intros r w' [= _ <-]].
  rewrite <- Hlog. generalize (log (Visit url) w). clear Hlog.
  apply quiet_bind; [apply quiet_wait_new_file|].
  intros [downloaded|]; [|apply quiet_ret].
  apply quiet_bind; [apply quiet_place_primary|]. intros final_path.
  apply quiet_bind; [apply quiet_copy_to_language|]. intros _.
  apply quiet_bind; [apply quiet_fetch_tibetan|]. intros _. apply quiet_ret.
Qed.

Lemma orchestration_raises (env : PageEnv) (url : str)
    (subfolder : option str) (w : World) :
  get_raises env = true ->
  _download_epub_from_text_page env url subfolder w = Raised.
Proof. intros Hget. unfold _download_epub_from_text_page. by rewrite Hget. Qed.

Lemma process_item_counted (site : str -> PageEnv) (st st' : Stats)
    (url : str) (topics : list str) (w w' : World) :
  process_item site st (url, topics) w = Return (st', w') ->
  counted_once url topics st w st' w'.
Proof.
  unfold process_item. destruct topics as [|primary extras].
  { intros [= <- <-]. unfold counted_once; cbn.
    rewrite app_nil_r. repeat split; lia. }
  unfold bind.
  destruct (_download_epub_from_text_page _ _ _ _) as [[r w1]| |] eqn:Horch;
    [|done..].
  apply orchestration_visits in Horch. destruct r as [final_path| |].
  - destruct (for_each _ _ _) as [[[] w2]| |] eqn:Hfor; [|done..].
    apply (quiet_for_each _ extras (quiet_copy_to_extra _ final_path)) in Hfor.
    intros [= <- <-]. unfold counted_once; cbn. rewrite Hfor, Horch.
    repeat split; (lia || done).
  - intros [= <- <-]. unfold counted_once; cbn. repeat split; (lia || done).
  - intros [= <- <-]. unfold counted_once; cbn. repeat split; (lia || done).
Qed.

(** The loop over the documents that are left. *)
Lemma run_items_counted (site : str -> PageEnv)
    (items : list (str * list str)) (st st' : Stats) (w w' : World) :
  run_items site st items w = Return (st', w') ->
  total st' = total st
  /\ (success st' + failed st' = success st + failed st + length items)%nat
  /\ (failed st + length (List.filter (fun it => negb (has_topics it)) items)
      <= failed st')%nat
  /\ visited (events w') =
     visited (events w) ++ map fst (List.filter has_topics items).
Proof.
  revert st w. induction items as [|[url topics] items IH]; intros st w;
    cbn [run_items].
  - intros [= <- <-]. cbn. rewrite app_nil_r. repeat split; lia.
  - unfold bind.
    destruct (process_item site st (url, topics) w) as [[st1 w1]| |] eqn:Hitem;
      [|done|done].
    intros Hrest. apply IH in Hrest as (Ht & Hsum & Hfailed & Hv).
    apply process_item_counted in Hitem as (Ht1 & Hsum1 & Hs1 & Hf1 & Hempty & Hv1).
    rewrite Hv, Hv1, Ht, Ht1. clear Hv Hv1.
    destruct topics as [|primary extras]; cbn.
    + destruct (Hempty eq_refl) as [Hf _]. rewrite app_nil_r.
      repeat split; (lia || done).
    + rewrite <- app_assoc. repeat split; (lia || done).
Qed.

(** *** When the calls return *)

Lemma wait_new_file_comes_back (dl : option (str * bytes)) (raises : bool)
    (remains : list (str * bytes)) (w : World) :
  raises = false
  \/ (exists n data, dl = Some (n, data) /\ files w !! joinpath [] n = None) ->
  returns (wait_new_file dl raises remains) w (fun _ _ => True).
Proof.
  intros Hok. unfold returns. rewrite wait_new_file_exactly.
  assert (Hno : raises = false ->
                exists a w', no_new_file raises remains w = Return (a, w') /\ True).
  { intros ->. by eexists _, _. }
  destruct dl as [[n data]|].
  - destruct (files w !! joinpath [] n) eqn:E; [|by eexists _, _].
    apply Hno. by destruct Hok as [|(? & ? & [= <- <-] & ?)]; [|congruence].
  - apply Hno. by destruct Hok as [|(? & ? & ? & ?)].
Qed.

Lemma try_comes_back (op : World -> option World) (w : World) :
  returns (try_ op) w (fun _ _ => True).
Proof. by apply (returns_weaken _ _ _ _ (try_returns op w)). Qed.

Lemma resolve_comes_back (path : Path) (w : World) :
  returns (resolve path) w (fun _ _ => True).
Proof. by apply (returns_weaken _ _ _ _ (resolve_returns path w)). Qed.

Lemma try_copy2_comes_back (how : Attempt) (src dst : Path) (w : World) :
  returns (try_copy2 how src dst) w (fun _ _ => True).
Proof.
  destruct how as [|residue]; cbn [try_copy2]; [apply try_comes_back|].
  by eexists _, _.
Qed.

Lemma place_primary_comes_back (env : PageEnv) (downloaded : Path)
    (subfolder : option str) (w : World) :
  target_dir_raises env = false \/ subfolder = None \/ subfolder = Some [] ->
  returns (place_primary env downloaded subfolder) w (fun _ _ => True).
Proof.
  intros Hok. destruct subfolder as [[|c s]|]; cbn [place_primary];
    try by apply returns_ret.
  destruct Hok as [Hdir|[|]]; [|done..].
  unfold returns. rewrite may_raise_bind, Hdir. apply returns_bind.
  apply (returns_weaken _ _ _ _ (resolve_comes_back _ w)). intros target w1 _.
  apply returns_bind.
  apply (returns_weaken _ _ _ _ (try_comes_back _ w1)). intros moved w2 _.
  by apply returns_ret.
Qed.

Lemma copy_to_language_comes_back (env : PageEnv) (final_path : Path)
    (lang : option str) (w : World) :
  returns (copy_to_language env final_path lang) w (fun _ _ => True).
Proof.
  destruct lang as [l|]; cbn [copy_to_language]; [|by apply returns_ret].
  apply returns_bind.
  apply (returns_weaken _ _ _ _ (resolve_comes_back _ w)). intros target w1 _.
  apply returns_bind.
  apply (returns_weaken _ _ _ _ (try_copy2_comes_back _ _ _ w1)).
  intros copied w2 _. by apply returns_ret.
Qed.

Lemma fetch_tibetan_comes_back (env : PageEnv) (lang : option str)
    (w : World) :
  returns (fetch_tibetan env lang) w (fun _ _ => True).
Proof.
  unfold fetch_tibetan. case_bool_decide; [|by apply returns_ret].
  destruct (_ && _); [|by apply returns_ret]. apply returns_bind.
  apply (returns_weaken _ _ _ _
           (wait_new_file_comes_back _ false _ w ltac:(by left))).
  intros [tib_downloaded|] w1 _; [|by apply returns_ret].
  apply returns_bind.
  apply (returns_weaken _ _ _ _ (resolve_comes_back _ w1)). intros target w2 _.
  apply returns_bind.
  apply (returns_weaken _ _ _ _ (try_comes_back _ w2)). intros moved w3 _.
  by apply returns_ret.
Qed.

(** The orchestration returns when [driver.get] does, the poller comes
    back, and the primary folder can be made. *)
Lemma orchestration_returns (env : PageEnv) (url : str)
    (subfolder : option str) (w : World) :
  get_raises env = false ->
  poller_raises env = false \/ is_Some (arrives env w) ->
  target_dir_raises env = false \/ subfolder = None \/ subfolder = Some [] ->
  returns (_download_epub_from_text_page env url subfolder) w
    (fun _ _ => True).
Proof.
  intros Hget Hpoll Hdir. unfold _download_epub_from_text_page. rewrite Hget.
  destruct (downloads_block env); cbn [negb]; [|by eexists _, _].
  destruct (epub_btn env); cbn [negb]; [|by eexists _, _].
  destruct (click_ok env); cbn [negb]; [|by eexists _, _].
  apply returns_bind.
  apply (returns_weaken _ _ (fun _ _ => True)).
  { apply wait_new_file_comes_back.
    destruct Hpoll as [Hpoll|[[n data] Harr]]; [by left|right].
    unfold arrives in Harr. destruct (download env) as [[n' data']|]; [|done].
    destruct (exists_ w (joinpath [] n')) eqn:Hex; [done|].
    exists n', data'. split; [done|]. by apply exists_lookup. }
  intros [downloaded|] w1 _; [|by apply returns_ret].
  apply returns_bind.
  apply (returns_weaken _ _ _ _
           (place_primary_comes_back env downloaded subfolder w1 Hdir)).
  intros final_path w2 _. apply returns_bind.
  apply (returns_weaken _ _ _ _ (copy_to_language_comes_back _ _ _ w2)).
  intros _ w3 _. apply returns_bind.
  apply (returns_weaken _ _ _ _ (fetch_tibetan_comes_back _ _ w3)).
  intros _ w4 _. by apply returns_ret.
Qed.

Lemma copies_to_extras_come_back (env : PageEnv) (final_path : Path)
    (extras : list str) (w : World) :
  forallb (fun extra => negb (extra_dir_raises env extra)) extras = true ->
  returns (for_each (copy_to_extra env final_path) extras) w
    (fun _ _ => True).
Proof.
  revert w. induction extras as [|extra extras IH]; intros w Hok;
    cbn [for_each]; [by apply returns_ret|].
  cbn [forallb] in Hok. apply andb_true_iff in Hok as [Hdir Hok].
  apply negb_true_iff in Hdir.
  apply returns_bind. unfold copy_to_extra, returns at 1.
  rewrite may_raise_bind, Hdir. apply returns_bind.
  apply (returns_weaken _ _ _ _ (resolve_comes_back _ w)). intros target w1 _.
  apply returns_bind.
  apply (returns_weaken _ _ _ _ (try_copy2_comes_back _ _ _ w1)).
  intros copied w2 _. apply returns_ret. by apply IH.
Qed.

Lemma process_item_returns (site : str -> PageEnv) (st : Stats)
    (item : str * list str) (w : World) :
  unguarded_calls_return site item = true ->
  returns (process_item site st item) w (fun _ _ => True).
Proof.
  destruct item as [url [|primary extras]]; [by intros _; apply returns_ret|].
  unfold unguarded_calls_return. cbn [fst snd tail].
  intros Hok. apply andb_true_iff in Hok as [Hok Hextras].
  apply andb_true_iff in Hok as [Hok Hdir].
  apply andb_true_iff in Hok as [Hget Hpoll].
  apply negb_true_iff in Hget, Hpoll, Hdir.
  cbn [process_item]. apply returns_bind.
  apply (returns_weaken _ _ _ _
           (orchestration_returns (site url) url (Some primary) w Hget
              ltac:(by left) ltac:(by left))).
  intros [final_path| |] w1 _; [|by apply returns_ret..].
  apply returns_bind.
  apply (returns_weaken _ _ _ _
           (copies_to_extras_come_back _ final_path extras w1 Hextras)).
  intros _ w2 _. by apply returns_ret.
Qed.

Lemma run_items_returns (site : str -> PageEnv)
    (items : list (str * list str)) (st : Stats) (w : World) :
  forallb (unguarded_calls_return site) items = true ->
  exists st' w', run_items site st items w = Return (st', w').
Proof.
  revert st w. induction items as [|item items IH]; intros st w Hok;
    cbn [run_items].
  - by exists st, w.
  - cbn [forallb] in Hok. apply andb_true_iff in Hok as [Hitem Hok].
    destruct (process_item_returns site st item w Hitem)
      as (st1 & w1 & Hrun & _).
    unfold bind. rewrite Hrun. by apply IH.
Qed.

(** C7. A document whose list of topics is empty is counted as failed and
    nothing else happens for it: the orchestration is not called, no page is
    visited, the world is as before.  Over a whole run, the pages visited
    are those of the documents that have a topic, in order, and every
    document without topic is among the failed. *)
Theorem empty_topics_counted_as_failed (site : str -> PageEnv) :
  (forall st url w,
      process_item site st (url, []) w =
      Return ({| total := total st; success := success st;
                 failed := failed st + 1 |}, w))
  /\ (forall items w st' w',
        run_all site items w = Return (st', w') ->
        visited (events w') =
          visited (events w) ++ map fst (List.filter has_topics items)
        /\ (length (List.filter (fun it => negb (has_topics it)) items)
            <= failed st')%nat).
Proof.
  split; [done|].
  intros items w st' w' Hrun. unfold run_all in Hrun.
  apply run_items_counted in Hrun as (_ & _ & Hfailed & Hv).
  split; [done|]. cbn in Hfailed. lia.
Qed.

(** X19.  The counters of a run.  When the run is over, [total] is the
    number of documents and [success + failed = total]; every document that
    was processed has added one to exactly one of the two counters.  A
    document that fails, by having no topic or by an orchestration that
    returns [False] or [None], is counted as failed and the loop goes on
    with the documents that remain.  The run comes to its end when none of
    the calls that stand outside a [try] raises: [driver.get], the poller,
    the making of the topic folders. *)
Theorem run_counts_every_document (site : str -> PageEnv)
    (items : list (str * list str)) (w : World) :
  (forall st' w',
      run_all site items w = Return (st', w') ->
      total st' = length items
      /\ (success st' + failed st' = total st')%nat)
  /\ (forall st item w0 st1 w1,
        process_item site st item w0 = Return (st1, w1) ->
        (success st1 = (success st + 1)%nat /\ failed st1 = failed st)
        \/ (success st1 = success st /\ failed st1 = (failed st + 1)%nat))
  /\ (forall st url rest w0,
        run_items site st ((url, []) :: rest) w0
        = run_items site (count_failed st) rest w0)
  /\ (forall st url primary extras rest w0 r w1,
        _download_epub_from_text_page (site url) url (Some primary) w0
          = Return (r, w1) ->
        r = RFalse \/ r = RNone ->
        run_items site st ((url, primary :: extras) :: rest) w0
        = run_items site (count_failed st) rest w1)
  /\ (forallb (unguarded_calls_return site) items = true ->
      exists st' w', run_all site items w = Return (st', w')).
Proof.
  split; [|split; [|split; [|split]]].
  - intros st' w' Hrun. unfold run_all in Hrun.
    apply run_items_counted in Hrun as (Ht & Hsum & _ & _).
    cbn in Ht, Hsum. split; [done|lia].
  - intros st [url topics] w0 st1 w1 Hitem.
    unfold process_item, bind in Hitem.
    destruct topics as [|primary extras].
    + unfold ret in Hitem. injection Hitem as <- _. cbn. right. done.
    + destruct (_download_epub_from_text_page _ _ _ _) as [[r w2]| |];
        [|done|done].
      destruct r as [final_path| |].
      * destruct (for_each _ _ _) as [[[] w3]| |]; [|done|done].
        unfold ret in Hitem. injection Hitem as <- _. cbn. left. done.
      * unfold ret in Hitem. injection Hitem as <- _. cbn. right. done.
      * unfold ret in Hitem. injection Hitem as <- _. cbn. right. done.
  - done.
  - intros st url primary extras rest w0 r w1 Horch Hr.
    cbn [run_items]. unfold bind at 1. unfold process_item, bind.
    rewrite Horch. by destruct Hr as [-> | ->].
  - apply run_items_returns.
Qed.

End RunCoordinator.

(** ** Placement: the move, the copies and the files they leave *)

Section Placement.

Context `{PyLib}.

Lemma moves_app (es1 es2 : list Event) :
  moves (es1 ++ es2) = (moves es1 + moves es2)%nat.
Proof. unfold moves. by rewrite List.filter_app, length_app. Qed.

Lemma copies_app (es1 es2 : list Event) :
  copies (es1 ++ es2) = (copies es1 + copies es2)%nat.
Proof. unfold copies. by rewrite List.filter_app, length_app. Qed.

Lemma moves_copies_of_copies (src : Path) (dsts : list Path) :
  moves (map (Copy2 src) dsts) = 0%nat
  /\ copies (map (Copy2 src) dsts) = length dsts.
Proof.
  unfold moves, copies. induction dsts as [|d dsts [IHm IHc]]; cbn; [done|].
  split; [done|by f_equal].
Qed.

Lemma bind_inv {A B} (c : M A) (k : A -> M B) (w w' : World) (b : B) :
  (x <~ c ;; k x) w = Return (b, w') ->
  exists a w1, c w = Return (a, w1) /\ k a w1 = Return (b, w').
Proof.
  unfold bind. destruct (c w) as [[a w1]| |]; [|done..]. intros Hk.
  by exists a, w1.
Qed.

Lemma ensures_may_raise_bind {B} (raises : bool) (k : M B) (w : World)
    (post : B -> World -> Prop) :
  (raises = false -> ensures k w post) ->
  ensures (_ <~ may_raise raises ;; k) w post.
Proof.
  intros Hk b w'. rewrite may_raise_bind. destruct raises; [done|].
  by apply Hk.
Qed.

(** The move inside its [try]: refused, nothing happens; taken, the file
    goes from [src] to [dst]. *)
Lemma try_replace_moves (refused : bool) (src dst : Path) (data : bytes)
    (w : World) :
  files w !! src = Some data ->
  returns (try_ (unless_refused refused (replace src dst))) w
    (fun moved w' =>
       if refused then moved = false /\ w' = w
       else moved = true
            /\ files w' = <[dst := data]> (delete src (files w))
            /\ events w' = events w ++ [Replace src dst]).
Proof.
  intros Hsrc. apply (returns_weaken _ _ _ _ (try_returns _ w)).
  intros moved w'. unfold unless_refused, replace. rewrite Hsrc.
  destruct refused.
  - destruct moved; [done|]. by intros [_ ->].
  - destruct moved; [|by intros [? _]]. by intros [= <-].
Qed.

(** A copy of an existing file into the folder [dir], under a name that was
    free: when it goes through, one new file with the same contents; when
    it fails, at most a file of its own making at that name. *)
Lemma copy_into_folder (how : Attempt) (src : Path) (dir : list str)
    (data : bytes) (w : World) :
  files w !! src = Some data ->
  returns (target <~ resolve (joinpath dir (name src)) ;;
           _ <~ try_copy2 how src target ;; ret tt) w
    (fun _ w' =>
       exists dst,
         files w !! dst = None /\ parent dst = dir
         /\ match how with
            | GoesThrough =>
                files w' = <[dst := data]> (files w)
                /\ events w' = events w ++ [Copy2 src dst]
            | Fails residue =>
                events w' = events w
                /\ files w' = match residue with
                              | Some part => <[dst := part]> (files w)
                              | None => files w
                              end
            end).
Proof.
  intros Hsrc. apply returns_bind.
  apply (returns_weaken _ _ _ _ (resolve_returns _ w)).
  intros dst w1 (-> & Hfree & Hparent & _). apply returns_bind.
  destruct how as [|residue]; cbn [try_copy2].
  - apply (returns_weaken _ _ _ _ (try_returns _ w)).
    intros copied w2. unfold copy2. rewrite Hsrc.
    destruct copied; [|by intros [? _]]. intros [= <-].
    apply returns_ret. by exists dst.
  - eexists _, _. split; [done|]. apply returns_ret. exists dst.
    split; [done|]. split; [done|]. by destruct residue.
Qed.

(** What such a copy leaves alone. *)
Lemma copy_leaves_alone (how : Attempt) (src dst : Path) (data : bytes)
    (w w' : World) :
  files w !! src = Some data -> files w !! dst = None ->
  match how with
  | GoesThrough =>
      files w' = <[dst := data]> (files w)
      /\ events w' = events w ++ [Copy2 src dst]
  | Fails residue =>
      events w' = events w
      /\ files w' = match residue with
                    | Some part => <[dst := part]> (files w)
                    | None => files w
                    end
  end ->
  keeps w w' /\ files w' !! src = Some data
  /\ forall p, p <> dst -> files w' !! p = files w !! p.
Proof.
  intros Hsrc Hfree Hhow.
  assert (Hfiles : exists c, files w' = <[dst := c]> (files w)
                             \/ files w' = files w).
  { destruct how as [|[part|]].
    - exists data. left. by destruct Hhow.
    - exists part. left. by destruct Hhow.
    - exists data. right. by destruct Hhow. }
  destruct Hfiles as [c [Hfiles|Hfiles]]; rewrite Hfiles.
  - split; [by eapply keeps_insert|]. split.
    + rewrite lookup_insert_ne; [done|congruence].
    + intros p Hp. by rewrite lookup_insert_ne.
  - split; [|done]. intros p c' Hp. by rewrite Hfiles.
Qed.

Lemma copy_to_extra_ensures (env : PageEnv) (final_path : Path)
    (extra : str) (data : bytes) (w : World) :
  files w !! final_path = Some data ->
  ensures (copy_to_extra env final_path extra) w
    (fun _ w' =>
       exists dst,
         files w !! dst = None /\ parent dst = [safe_name extra]
         /\ match extra_copy env extra with
            | GoesThrough =>
                files w' = <[dst := data]> (files w)
                /\ events w' = events w ++ [Copy2 final_path dst]
            | Fails residue =>
                events w' = events w
                /\ files w' = match residue with
                              | Some part => <[dst := part]> (files w)
                              | None => files w
                              end
            end).
Proof.
  intros Hsrc. unfold copy_to_extra. apply ensures_may_raise_bind. intros _.
  apply returns_ensures. by apply copy_into_folder.
Qed.

(** The copies into the folders of the further topics leave every file
    that was there, the copied file among them. *)
Lemma copies_to_extras_keep (env : PageEnv) (final_path : Path)
    (data : bytes) (extras : list str) (w : World) :
  files w !! final_path = Some data ->
  ensures (for_each (copy_to_extra env final_path) extras) w
    (fun _ w' => keeps w w' /\ files w' !! final_path = Some data).
Proof.
  revert w. induction extras as [|extra extras IH]; intros w Hsrc;
    cbn [for_each].
  - apply ensures_ret. split; [apply keeps_refl|done].
  - apply ensures_bind.
    apply (ensures_weaken _ _ _ _
             (copy_to_extra_ensures env final_path extra data w Hsrc)).
    intros _ w1 (dst & Hfree & _ & Hhow).
    destruct (copy_leaves_alone _ _ _ _ _ _ Hsrc Hfree Hhow)
      as (Hkeep1 & Hsrc1 & _).
    apply (ensures_weaken _ _ _ _ (IH w1 Hsrc1)).
    intros _ w2 [Hkeep2 Hsrc2]. split; [by eapply keeps_trans|done].
Qed.

(** When every copy goes through: one new file for each further topic. *)
Lemma copies_to_extras (env : PageEnv) (final_path : Path) (data : bytes)
    (extras : list str) (w : World) :
  files w !! final_path = Some data ->
  forallb (fun extra => goes_through (extra_copy env extra)) extras = true ->
  ensures (for_each (copy_to_extra env final_path) extras) w
    (fun _ w' =>
       exists dsts,
         Forall2 (fun extra d => parent d = [safe_name extra]) extras dsts
         /\ NoDup dsts
         /\ (forall d, d ∈ dsts -> files w !! d = None)
         /\ (forall p, files w' !! p =
                       if bool_decide (p ∈ dsts) then Some data
                       else files w !! p)
         /\ events w' = events w ++ map (Copy2 final_path) dsts).
Proof.
  revert w. induction extras as [|extra extras IH]; intros w Hsrc Hgo;
    cbn [for_each].
  - apply ensures_ret. exists []. cbn. rewrite app_nil_r.
    split; [apply Forall2_nil_2|]. split; [apply NoDup_nil_2|].
    split; [|done]. intros d Hd. by apply elem_of_nil in Hd.
  - cbn [forallb] in Hgo. apply andb_true_iff in Hgo as [Hgo1 Hgo].
    apply ensures_bind.
    apply (ensures_weaken _ _ _ _
             (copy_to_extra_ensures env final_path extra data w Hsrc)).
    intros _ w1 (dst & Hfree & Hparent & Hhow).
    destruct (extra_copy env extra) as [|residue]; [|done].
    destruct Hhow as [Hfiles Hevents].
    assert (Hne : final_path <> dst) by (intros ->; congruence).
    assert (Hsrc1 : files w1 !! final_path = Some data).
    { by rewrite Hfiles, lookup_insert_ne. }
    apply (ensures_weaken _ _ _ _ (IH w1 Hsrc1 Hgo)).
    intros _ w2 (dsts & Hdirs & Hnd & Hfresh & Hlook & Hevents2).
    assert (Hnotin : dst ∉ dsts).
    { intros Hin. apply Hfresh in Hin. by rewrite Hfiles, lookup_insert_eq in Hin. }
    exists (dst :: dsts).
    split; [by apply Forall2_cons|]. split; [by apply NoDup_cons|].
    split; [|split].
    + intros d [->|Hd]%elem_of_cons; [done|].
      specialize (Hfresh d Hd). rewrite Hfiles in Hfresh.
      by apply lookup_insert_None in Hfresh as [? _].
    + intros p. rewrite Hlook, Hfiles.
      destruct (decide (p = dst)) as [->|Hp].
      * rewrite lookup_insert_eq, (bool_decide_eq_true_2 (dst ∈ dst :: dsts));
          [by case_bool_decide|apply list_elem_of_here].
      * rewrite lookup_insert_ne by done.
        apply if_bool_decide_other. rewrite elem_of_cons. tauto.
    + rewrite Hevents2, Hevents, <- app_assoc. done.
Qed.

(** The move into the primary folder, from the download directory. *)
Lemma place_primary_spec (env : PageEnv) (n : str) (data : bytes)
    (subfolder : option str) (w : World) :
  files w !! joinpath [] n = Some data ->
  ensures (place_primary env (joinpath [] n) subfolder) w
    (fun final_path w' =>
       match subfolder with
       | Some (c :: s) =>
           target_dir_raises env = false
           /\ if move_fails env then final_path = joinpath [] n /\ w' = w
              else parent final_path = [safe_name (c :: s)]
                   /\ files w !! final_path = None
                   /\ files w' = <[final_path := data]>
                                   (delete (joinpath [] n) (files w))
                   /\ events w' =
                      events w ++ [Replace (joinpath [] n) final_path]
       | _ => final_path = joinpath [] n /\ w' = w
       end).
Proof.
  intros Hsrc. destruct subfolder as [[|c s]|]; cbn [place_primary];
    try by apply ensures_ret.
  apply ensures_may_raise_bind. intros Hdir. apply returns_ensures.
  apply returns_bind.
  apply (returns_weaken _ _ _ _ (resolve_returns _ w)).
  intros target w1 (-> & Hfree & Hparent & _). apply returns_bind.
  apply (returns_weaken _ _ _ _
           (try_replace_moves (move_fails env) _ target data w Hsrc)).
  intros moved w2 Hmoved. apply returns_ret. split; [done|].
  destruct (move_fails env).
  - by destruct Hmoved as [-> ->].
  - by destruct Hmoved as (-> & ? & ?).
Qed.

(** The copy into the language folder. *)
Lemma copy_to_language_spec (env : PageEnv) (final_path : Path)
    (data : bytes) (lang_name : option str) (w : World) :
  files w !! final_path = Some data ->
  returns (copy_to_language env final_path lang_name) w
    (fun _ w' =>
       exists lang,
         events w' = events w ++ lang
         /\ keeps w w'
         /\ (forall m, files w' !! joinpath [] m = files w !! joinpath [] m)
         /\ match lang_name, lang_copy env with
            | Some l, GoesThrough =>
                exists lt, lang = [Copy2 final_path lt] /\ parent lt = [l]
                           /\ files w !! lt = None
                           /\ files w' !! lt = Some data
            | _, _ => lang = []
            end).
Proof.
  intros Hsrc. destruct lang_name as [l|]; cbn [copy_to_language].
  2:{ apply returns_ret. exists []. rewrite app_nil_r.
      split; [done|]. split; [apply keeps_refl|]. by destruct (lang_copy env). }
  apply (returns_weaken _ _ _ _
           (copy_into_folder (lang_copy env) _ [l] data w Hsrc)).
  intros _ w' (lt & Hfree & Hparent & Hhow).
  destruct (copy_leaves_alone _ _ _ _ _ _ Hsrc Hfree Hhow)
    as (Hkeep & _ & Hrest).
  assert (Hsink : forall m, files w' !! joinpath [] m = files w !! joinpath [] m).
  { intros m. apply Hrest. intros E. by rewrite <- E in Hparent. }
  destruct (lang_copy env) as [|residue].
  - destruct Hhow as [Hfiles Hevents].
    exists [Copy2 final_path lt]. split; [done|]. split; [done|].
    split; [done|]. exists lt. split; [done|]. split; [done|].
    split; [done|]. by rewrite Hfiles, lookup_insert_eq.
  - destruct Hhow as [Hevents _]. exists []. rewrite app_nil_r. by repeat split.
Qed.

(** The second download and its move into [Tibetan/]. *)
Lemma fetch_tibetan_spec (env : PageEnv) (lang : option str) (w : World) :
  returns (fetch_tibetan env lang) w
    (fun _ w' =>
       exists tib,
         events w' = events w ++ tib
         /\ keeps w w'
         /\ (tib = []
             \/ lang = Some (lit "English")
                /\ tib_control_works env = true
                /\ tib_move_fails env = false
                /\ exists tn tdata tt,
                     tib_download env = Some (tn, tdata)
                     /\ tib = [Replace (joinpath [] tn) tt]
                     /\ parent tt = [lit "Tibetan"]
                     /\ files w !! tt = None
                     /\ files w' !! tt = Some tdata)
         /\ (lang = Some (lit "English") ->
             tib_control_works env = true ->
             tib_move_fails env = false ->
             forall tn tdata,
               tib_download env = Some (tn, tdata) ->
               files w !! joinpath [] tn = None ->
               tib <> [])).
Proof.
  assert (Hnothing : forall w',
            events w' = events w -> keeps w w' ->
            (lang = Some (lit "English") ->
             tib_control_works env = true ->
             tib_move_fails env = false ->
             forall tn tdata,
               tib_download env = Some (tn, tdata) ->
               files w !! joinpath [] tn = None -> False) ->
            returns (ret tt) w'
              (fun _ w' =>
                 exists tib,
                   events w' = events w ++ tib
                   /\ keeps w w'
                   /\ (tib = []
                       \/ lang = Some (lit "English")
                          /\ tib_control_works env = true
                          /\ tib_move_fails env = false
                          /\ exists tn tdata tt,
                               tib_download env = Some (tn, tdata)
                               /\ tib = [Replace (joinpath [] tn) tt]
                               /\ parent tt = [lit "Tibetan"]
                               /\ files w !! tt = None
                               /\ files w' !! tt = Some tdata)
                   /\ (lang = Some (lit "English") ->
                       tib_control_works env = true ->
                       tib_move_fails env = false ->
                       forall tn tdata,
                         tib_download env = Some (tn, tdata) ->
                         files w !! joinpath [] tn = None ->
                         tib <> []))).
  { intros w' Hev Hkeep Hno. apply returns_ret. exists [].
    rewrite app_nil_r. split; [done|]. split; [done|]. split; [by left|].
    intros Hl Hc Hm tn tdata Hd Hf. by destruct (Hno Hl Hc Hm tn tdata Hd Hf). }
  unfold fetch_tibetan. case_bool_decide as Hlang.
  2:{ apply Hnothing; [done|apply keeps_refl|]. by intros ?. }
  fold (tib_control_works env). destruct (tib_control_works env) eqn:Hcontrol.
  2:{ apply Hnothing; [done|apply keeps_refl|]. by intros _ ?. }
  apply returns_bind. unfold returns at 1. rewrite wait_new_file_exactly.
  destruct (tib_download env) as [[tn tdata]|] eqn:Hdl.
  2:{ eexists _, _. split; [done|].
      apply Hnothing; [done|apply leave_keeps|]. by intros _ _ _ ? ?. }
  destruct (files w !! joinpath [] tn) as [c|] eqn:Hsink.
  { eexists _, _. split; [done|].
    apply Hnothing; [done|apply leave_keeps|].
    intros _ _ _ tn' tdata' [= <- <-]. congruence. }
  eexists _, _. split; [done|].
  set (w1 := {| files := <[joinpath [] tn := tdata]> (files w);
                events := events w |}).
  assert (Hfiles1 : files w1 = <[joinpath [] tn := tdata]> (files w)) by done.
  assert (Hev1 : events w1 = events w) by done.
  assert (Hkeep1 : keeps w w1) by (by eapply keeps_insert).
  assert (Hsrc : files w1 !! joinpath [] tn = Some tdata).
  { by rewrite Hfiles1, lookup_insert_eq. }
  clearbody w1. apply returns_bind.
  apply (returns_weaken _ _ _ _ (resolve_returns _ w1)).
  intros tt w1' (-> & Hfree & Hparent & _). apply returns_bind.
  apply (returns_weaken _ _ _ _
           (try_replace_moves (tib_move_fails env) _ tt tdata w1 Hsrc)).
  intros moved w2 Hmoved. destruct (tib_move_fails env) eqn:Hmove.
  { destruct Hmoved as [_ ->]. apply Hnothing; [done|done|]. by intros _ _ ?. }
  destruct Hmoved as (_ & Hfiles2 & Hev2). apply returns_ret.
  rewrite Hfiles1, delete_insert_eq, (delete_id _ _ Hsink) in Hfiles2.
  assert (Hfree0 : files w !! tt = None) by (by eapply keeps_free).
  exists [Replace (joinpath [] tn) tt]. split; [by rewrite Hev2, Hev1|].
  split; [by eapply keeps_insert|]. split; [|done]. right.
  split; [done|]. split; [done|]. split; [done|].
  exists tn, tdata, tt. split; [done|]. split; [done|]. split; [done|].
  split; [done|]. by rewrite Hfiles2, lookup_insert_eq.
Qed.

Lemma arrives_lookup (env : PageEnv) (w : World) :
  arrives env w =
  match download env with
  | Some (n, data) =>
      match files w !! joinpath [] n with
      | None => Some (n, data)
      | Some _ => None
      end
  | None => None
  end.
Proof.
  unfold arrives. destruct (download env) as [[n data]|]; [|done].
  destruct (files w !! joinpath [] n) as [c|] eqn:E.
  - assert (Hex : exists_ w (joinpath [] n) = true).
    { unfold exists_. apply bool_decide_eq_true. by rewrite E. }
    by rewrite Hex.
  - by rewrite (proj2 (exists_lookup w _) E).
Qed.

(** The orchestration, whatever it returns. *)
Lemma orchestration_ensures (env : PageEnv) (url : str)
    (subfolder : option str) (w : World) :
  ensures (_download_epub_from_text_page env url subfolder) w
    (orchestrated env url subfolder w).
Proof.
  unfold ensures, _download_epub_from_text_page, orchestrated, control_works.
  destruct (get_raises env); [done|].
  destruct (downloads_block env); cbn [negb andb];
    [|by intros r w' [= <- <-]].
  destruct (epub_btn env); cbn [negb andb]; [|by intros r w' [= <- <-]].
  destruct (click_ok env); cbn [negb andb]; [|by intros r w' [= <- <-]].
  intros r w' Hrun. apply bind_inv in Hrun as (d & w1 & Hd & Hk).
  rewrite wait_new_file_exactly in Hd. cbn [files log] in Hd.
  rewrite arrives_lookup.
  assert (Hno : no_new_file (poller_raises env) (left_behind env)
                  (log (Visit url) w) = Return (d, w1) ->
                d = None /\ poller_raises env = false
                /\ w1 = leave (left_behind env) (log (Visit url) w)).
  { unfold no_new_file. destruct (poller_raises env); [done|].
    by intros [= <- <-]. }
  destruct (download env) as [[n data]|].
  2:{ destruct (Hno Hd) as (-> & Hpoll & ->).
      unfold ret in Hk. by injection Hk as <- <-. }
  destruct (files w !! joinpath [] n) as [c|] eqn:Hsink.
  { destruct (Hno Hd) as (-> & Hpoll & ->).
    unfold ret in Hk. by injection Hk as <- <-. }
  clear Hno. injection Hd as <- <-.
  set (w1 := {| files := <[joinpath [] n := data]> (files w);
                events := events w ++ [Visit url] |}) in Hk.
  assert (Hfiles1 : files w1 = <[joinpath [] n := data]> (files w)) by done.
  assert (Hev1 : events w1 = events w ++ [Visit url]) by done.
  assert (Hsrc : files w1 !! joinpath [] n = Some data).
  { by rewrite Hfiles1, lookup_insert_eq. }
  clearbody w1.
  apply bind_inv in Hk as (final_path & w2 & Hplace & Hk).
  apply bind_inv in Hk as ([] & w3 & Hlang & Hk).
  apply bind_inv in Hk as ([] & w4 & Htib & Hk).
  unfold ret in Hk. injection Hk as <- <-.
  apply (place_primary_spec env n data subfolder w1 Hsrc) in Hplace.
  (* what the placement comes to, moved or not *)
  assert (Hplaced :
    exists mv,
      events w2 = events w ++ [Visit url] ++ mv
      /\ match subfolder with
         | Some (c :: s) =>
             target_dir_raises env = false
             /\ if move_fails env
                then mv = [] /\ final_path = joinpath [] n
                else mv = [Replace (joinpath [] n) final_path]
                     /\ parent final_path = [safe_name (c :: s)]
                     /\ files w !! final_path = None
         | _ => mv = [] /\ final_path = joinpath [] n
         end
      /\ files w2 !! final_path = Some data
      /\ keeps w w2
      /\ (forall tn, files w !! joinpath [] tn = None ->
                     joinpath [] tn <> final_path ->
                     files w2 !! joinpath [] tn = None)).
  { assert (Hstays : final_path = joinpath [] n -> w2 = w1 ->
              events w2 = events w ++ [Visit url] ++ []
              /\ files w2 !! final_path = Some data
              /\ keeps w w2
              /\ (forall tn, files w !! joinpath [] tn = None ->
                             joinpath [] tn <> final_path ->
                             files w2 !! joinpath [] tn = None)).
    { intros -> ->. split; [by rewrite app_nil_r|]. split; [done|].
      split; [by eapply keeps_insert|].
      intros tn Hfree Hne. by rewrite Hfiles1, lookup_insert_ne. }
    destruct subfolder as [[|c s]|].
    - destruct Hplace as [Hf Hw]. exists []. by destruct (Hstays Hf Hw) as (? & ? & ? & ?).
    - destruct Hplace as [Hdir Hplace]. destruct (move_fails env).
      + destruct Hplace as [Hf Hw]. exists [].
        by destruct (Hstays Hf Hw) as (? & ? & ? & ?).
      + destruct Hplace as (Hparent & Hfree1 & Hfiles2 & Hev2).
        rewrite Hfiles1 in Hfree1.
        apply lookup_insert_None in Hfree1 as [Hfree _].
        rewrite Hfiles1, delete_insert_eq, (delete_id _ _ Hsink) in Hfiles2.
        exists [Replace (joinpath [] n) final_path].
        split; [by rewrite Hev2, Hev1, <- app_assoc|]. split; [done|].
        split; [by rewrite Hfiles2, lookup_insert_eq|].
        split; [by eapply keeps_insert|].
        intros tn Hfree' Hne. by rewrite Hfiles2, lookup_insert_ne.
    - destruct Hplace as [Hf Hw]. exists []. by destruct (Hstays Hf Hw) as (? & ? & ? & ?). }
  destruct Hplaced as (mv & Hev2 & Hmv & Hfinal2 & Hkeep2 & Hsink2).
  apply (returns_inv _ _ _ _ _
           (copy_to_language_spec env final_path data _ w2 Hfinal2)) in Hlang.
  destruct Hlang as (lang & Hev3 & Hkeep3 & Hsink3 & Hlang).
  apply (returns_inv _ _ _ _ _ (fetch_tibetan_spec env _ w3)) in Htib.
  destruct Htib as (tib & Hev4 & Hkeep4 & Htib & Harrives).
  pose proof (keeps_trans _ _ _ Hkeep2 Hkeep3) as Hkeep03.
  split; [done|]. exists n, data. split; [done|].
  exists mv, lang, tib.
  split. { rewrite Hev4, Hev3, Hev2. by rewrite <- !app_assoc. }
  split; [done|]. split; [by apply Hkeep4, Hkeep3|]. split.
  { destruct (detected_language env) as [l|]; [|done].
    destruct (lang_copy env); [|done].
    destruct Hlang as (lt & ? & ? & Hfree & Hlt). exists lt.
    split; [done|]. split; [done|].
    split; [exact (keeps_free _ _ _ Hkeep2 Hfree)|by apply Hkeep4]. }
  split.
  { destruct Htib as [->|(Heng & Hc & Hm & tn & tdata & tt & ? & ? & ? & Hfree & Htt)];
      [by left|right].
    split; [done|]. split; [done|]. split; [done|]. exists tn, tdata, tt.
    split; [done|]. split; [done|]. split; [done|].
    split; [exact (keeps_free _ _ _ Hkeep03 Hfree)|done]. }
  split; [|by eapply keeps_trans].
  intros Heng Hc Hm tn tdata Hdl Hfree Hne.
  apply (Harrives Heng Hc Hm tn tdata Hdl). rewrite Hsink3. by apply Hsink2.
Qed.

(** C2, as amended.  For a document with a non-empty first topic that is
    counted as a success, when none of the moves and copies that place its
    file is refused:
    the downloaded file is moved once, into the folder of the first topic;
    it is copied once into the folder of every further topic, and once
    more, into the language folder, when a language was detected (so k-1
    copies exactly when none was); the only other move there can be is that
    of the second, Tibetan download of an English-only page, into
    [Tibetan/].  Nothing else is moved or copied.  The k files in the topic
    folders are k different paths, all new, all holding the downloaded
    bytes, the moved file among them; the copy in the language folder
    holds them too; and no file that existed before is changed. *)
Theorem placement_moves_once_copies_rest (site : str -> PageEnv)
    (st st' : Stats) (url primary : str) (extras : list str) (w w' : World) :
  primary <> [] ->
  process_item site st (url, primary :: extras) w = Return (st', w') ->
  success st' = (success st + 1)%nat ->
  file_calls_go_through (site url) extras = true ->
  let k := length (primary :: extras) in
  let language_copies :=
    match detected_language (site url) with Some _ => 1%nat | None => 0%nat end in
  exists n data final_path dsts lang tib,
    download (site url) = Some (n, data)
    /\ events w' =
       events w ++ [Visit url; Replace (joinpath [] n) final_path]
       ++ lang ++ tib ++ map (Copy2 final_path) dsts
    /\ match detected_language (site url) with
       | Some l =>
           exists lt, lang = [Copy2 final_path lt] /\ parent lt = [l]
                      /\ files w !! lt = None /\ files w' !! lt = Some data
       | None => lang = []
       end
    /\ (tib = []
        \/ detected_language (site url) = Some (lit "English")
           /\ exists tn tdata tt,
                tib_download (site url) = Some (tn, tdata)
                /\ tib = [Replace (joinpath [] tn) tt]
                /\ parent tt = [lit "Tibetan"]
                /\ files w !! tt = None
                /\ files w' !! tt = Some tdata)
    /\ moves (events w') = (moves (events w) + 1 + length tib)%nat
    /\ copies (events w') = (copies (events w) + (k - 1) + language_copies)%nat
    /\ Forall2 (fun topic d => parent d = [safe_name topic])
         (primary :: extras) (final_path :: dsts)
    /\ NoDup (final_path :: dsts)
    /\ (forall d, d ∈ final_path :: dsts ->
          files w !! d = None /\ files w' !! d = Some data)
    /\ (forall p c, files w !! p = Some c -> files w' !! p = Some c).
Proof.
  intros Hprimary Hitem Hsuccess Hgo k language_copies.
  unfold file_calls_go_through in Hgo.
  apply andb_true_iff in Hgo as [Hgo Hgo_extras].
  apply andb_true_iff in Hgo as [Hgo_move Hgo_lang].
  apply negb_true_iff in Hgo_move.
  cbn [process_item] in Hitem.
  apply bind_inv in Hitem as (r & w1 & Horch & Hitem).
  apply orchestration_ensures in Horch.
  destruct r as [final_path| |];
    [|unfold ret in Hitem; injection Hitem as <- _; cbn in Hsuccess;
      clear -Hsuccess; lia..].
  apply bind_inv in Hitem as ([] & w2 & Hfor & Hitem).
  unfold ret in Hitem. injection Hitem as _ <-.
  destruct Horch as (_ & n & data & Harr & mv & lang & tib & Hev & Hmv & Hfinal
                     & Hlang & Htib & _ & Hkeep).
  rewrite arrives_lookup in Harr.
  destruct (download (site url)) as [[n' data']|] eqn:Hdl; [|done].
  destruct (files w !! joinpath [] n') eqn:Hsink; [done|].
  injection Harr as -> ->.
  destruct primary as [|c s]; [done|]. clear Hprimary.
  destruct Hmv as [_ Hmv]. rewrite Hgo_move in Hmv.
  destruct Hmv as (-> & Hparent & Hnew).
  apply (copies_to_extras _ final_path data extras w1 Hfinal Hgo_extras) in Hfor.
  destruct Hfor as (dsts & Hdirs & Hnd & Hfree & Hlook & Hev2).
  assert (Hlen : length dsts = length extras).
  { symmetry. by eapply Forall2_length. }
  assert (Hkeep2 : keeps w1 w2).
  { intros p c' Hp. rewrite Hlook. rewrite bool_decide_eq_false_2; [done|].
    intros Hin. apply Hfree in Hin. congruence. }
  exists n, data, final_path, dsts, lang, tib.
  pose proof (moves_copies_of_copies final_path dsts) as [Hm Hc].
  split; [done|]. split.
  { rewrite Hev2, Hev. cbn. rewrite <- !app_assoc. cbn.
    by rewrite <- !app_assoc. }
  assert (Hlang' :
    moves lang = 0%nat /\ copies lang = language_copies
    /\ match detected_language (site url) with
       | Some l =>
           exists lt, lang = [Copy2 final_path lt] /\ parent lt = [l]
                      /\ files w !! lt = None /\ files w2 !! lt = Some data
       | None => lang = []
       end).
  { unfold language_copies. destruct (detected_language (site url)) as [l|].
    - destruct (lang_copy (site url)); [|done].
      destruct Hlang as (lt & -> & ? & ? & Hlt). repeat split.
      exists lt. repeat split; try done. by apply Hkeep2.
    - by subst lang. }
  destruct Hlang' as (Hml & Hcl & Hlang').
  assert (Htib' :
    moves tib = length tib /\ copies tib = 0%nat
    /\ (tib = []
        \/ detected_language (site url) = Some (lit "English")
           /\ exists tn tdata tt,
                tib_download (site url) = Some (tn, tdata)
                /\ tib = [Replace (joinpath [] tn) tt]
                /\ parent tt = [lit "Tibetan"]
                /\ files w !! tt = None
                /\ files w2 !! tt = Some tdata)).
  { destruct Htib as [->|(Heng & _ & _ & tn & tdata & tt & ? & -> & ? & ? & Htt)].
    - repeat split. by left.
    - repeat split. right. split; [done|]. exists tn, tdata, tt.
      repeat split; try done. by apply Hkeep2. }
  destruct Htib' as (Hmt & Hct & Htib').
  split; [done|]. split; [done|]. split.
  { rewrite Hev2, Hev, !moves_app, Hml, Hmt, Hm. cbn. lia. }
  split.
  { rewrite Hev2, Hev, !copies_app, Hcl, Hct, Hc, Hlen. unfold k. cbn. lia. }
  split; [by apply Forall2_cons|].
  assert (Hnotin : final_path ∉ dsts).
  { intros Hin. apply Hfree in Hin. congruence. }
  split; [by apply NoDup_cons|]. split.
  - intros d Hd. rewrite Hlook.
    apply elem_of_cons in Hd as [->|Hd].
    + split; [done|]. by rewrite bool_decide_eq_false_2.
    + rewrite bool_decide_eq_true_2 by done. split; [|done].
      eapply keeps_free; [exact Hkeep|]. by apply Hfree.
  - intros p c' Hp. by apply Hkeep2, Hkeep.
Qed.

End Placement.
(** ** The scenarios, run *)

(** C2, as stated, fails: document A has two topics and its page is
    English-only; the run moves the file once and copies it twice, into
    "Aspirations" and into "English". *)
Lemma english_only_page_is_copied_twice :
  exists st' w',
    @process_item py_fragment english_only no_stats document_A empty_world
      = Return (st', w')
    /\ success st' = 1%nat
    /\ events w' =
       [ Visit url_A;
         Replace (sink "a.epub") (joinpath [lit "Dedications"] (lit "a.epub"));
         Copy2 (joinpath [lit "Dedications"] (lit "a.epub"))
               (joinpath [lit "English"] (lit "a.epub"));
         Copy2 (joinpath [lit "Dedications"] (lit "a.epub"))
               (joinpath [lit "Aspirations"] (lit "a.epub")) ]
    /\ copies (events w') = 2%nat
    /\ ~ (moves (events w') = 1%nat
          /\ copies (events w') = (length (snd document_A) - 1)%nat).
Proof.
  set (r := result_of (@process_item py_fragment english_only no_stats
                         document_A) empty_world no_stats).
  exists r.1, r.2. split; [vm_compute; reflexivity|].
  split; [vm_compute; reflexivity|]. split; [vm_compute; reflexivity|].
  split; [vm_compute; reflexivity|].
  vm_compute. intros [_ [=]].
Qed.

(** The amended statement on document A with a bilingual page: one move,
    one copy, two files with the downloaded bytes. *)
Lemma placement_witness :
  exists st' w',
    @process_item py_fragment bilingual no_stats document_A empty_world
      = Return (st', w')
    /\ success st' = 1%nat
    /\ moves (events w') = 1%nat /\ copies (events w') = 1%nat
    /\ exists final_path dsts,
         length dsts = 1%nat /\ NoDup (final_path :: dsts)
         /\ forall d, d ∈ final_path :: dsts ->
                      files w' !! d = Some epub_bytes.
Proof.
  set (r := result_of (@process_item py_fragment bilingual no_stats document_A)
              empty_world no_stats).
  assert (Hrun : @process_item py_fragment bilingual no_stats document_A
                   empty_world = Return (r.1, r.2))
    by (vm_compute; reflexivity).
  exists r.1, r.2. split; [exact Hrun|].
  destruct (@placement_moves_once_copies_rest py_fragment bilingual
              no_stats r.1 url_A (lit "Dedications") [lit "Aspirations"]
              empty_world r.2)
    as (n & data & final_path & dsts & lang & tib & Hdl & _ & _ & _
        & _ & _ & Hdirs & Hnd & Hfiles & _).
  { vm_compute. discriminate. }
  { exact Hrun. }
  { vm_compute. reflexivity. }
  { vm_compute. reflexivity. }
  split; [vm_compute; reflexivity|].
  split; [vm_compute; reflexivity|]. split; [vm_compute; reflexivity|].
  exists final_path, dsts. split.
  { apply Forall2_length in Hdirs. cbn in Hdirs. by injection Hdirs as <-. }
  split; [done|]. intros d Hd. destruct (Hfiles d Hd) as [_ Hdata].
  assert (Hbytes : data = epub_bytes) by (by injection Hdl as _ <-).
  by rewrite <- Hbytes.
Defined.

(** C8.  The claim says that no single document's failure keeps the
    documents that remain from being processed.  [scrape_all] has no [try]
    around the orchestration, and the orchestration none around
    [driver.get]: when the page of document A does not load, the exception
    ends the run before document B is looked at, and no counters are
    reported. *)
Lemma failed_navigation_ends_the_run :
  @run_all py_fragment unreachable_site
     [document_A; (url_B, [lit "Aspirations"])] empty_world = Raised
  /\ ~ exists st' w',
        @run_all py_fragment unreachable_site
           [document_A; (url_B, [lit "Aspirations"])] empty_world
        = Return (st', w').
Proof.
  assert (Hrun : @run_all py_fragment unreachable_site
                   [document_A; (url_B, [lit "Aspirations"])] empty_world
                 = Raised) by (by vm_compute).
  split; [done|]. intros (st' & w' & Hreturn). congruence.
Qed.

(** The run over A, B and C: all three are counted, one as a success. *)
Lemma run_counts_witness :
  exists st' w',
    @run_all py_fragment scenario_site scenario_items empty_world
      = Return (st', w')
    /\ total st' = 3%nat /\ (success st' + failed st' = 3)%nat.
Proof.
  destruct (@run_counts_every_document py_fragment scenario_site scenario_items
              empty_world) as (Hcount & _ & _ & _ & Hreturns).
  destruct Hreturns as (st' & w' & Hrun); [vm_compute; reflexivity|].
  exists st', w'. split; [done|].
  destruct (Hcount st' w' Hrun) as [Htotal Hsum].
  split; [done|]. by rewrite Hsum, Htotal.
Defined.

(** In that run the pages of A and B are visited, C's is not, and C is
    among the failed. *)
Lemma empty_topics_witness :
  exists st' w',
    @run_all py_fragment scenario_site scenario_items empty_world
      = Return (st', w')
    /\ visited (events w') = [url_A; url_B]
    /\ (1 <= failed st')%nat.
Proof.
  set (r := result_of (@run_all py_fragment scenario_site scenario_items)
              empty_world no_stats).
  assert (Hrun : @run_all py_fragment scenario_site scenario_items empty_world
                 = Return (r.1, r.2)) by (vm_compute; reflexivity).
  exists r.1, r.2. split; [exact Hrun|].
  destruct (@empty_topics_counted_as_failed py_fragment scenario_site)
    as [_ Hruns].
  destruct (Hruns scenario_items empty_world r.1 r.2 Hrun) as [Hv Hfailed].
  split; [exact Hv|exact Hfailed].
Defined.

(** The two runs of the poller, through the theorem. *)
Lemma wait_for_download_witness :
  (exists o size,
      o ∈ polls_complete
      /\ @lower py_fragment (suffix (sink "new.epub")) = lit ".epub"
      /\ st_size1 o (sink "new.epub") = Some size
      /\ still_exists o (sink "new.epub") = true
      /\ st_size2 o (sink "new.epub") = Some size)
  /\ @_wait_for_download py_fragment {[ sink "old.epub" ]} 120 polls_stuck
     = Return None.
Proof.
  destruct (@wait_for_download_result py_fragment {[ sink "old.epub" ]} 120)
    as (Htimeout & Hpath & _).
  split.
  - destruct (Hpath polls_complete (sink "new.epub"))
      as (o & size & Hin & _ & _ & _ & Hepub & _ & Hs1 & Hex & Hs2).
    { by vm_compute. }
    by exists o, size.
  - apply (Htimeout [poll_at 0 ["old.epub"; "new.epub.crdownload"] [];
                     poll_at 60 ["old.epub"; "new.epub.crdownload"] []]
                    (poll_at 120 ["old.epub"; "new.epub.crdownload"] []) []).
    + repeat constructor.
    + by vm_compute.
Defined.

(** With "a.epub" and "a (1).epub" taken, the next name is "a (2).epub". *)
Example unique_path_crowded :
  _unique_path crowded_world (joinpath [lit "Aspirations"] (lit "a.epub"))
  = Some (joinpath [lit "Aspirations"] (lit "a (2).epub"))
  /\ _unique_path crowded_world (joinpath [lit "Dedications"] (lit "a.epub"))
     = Some (joinpath [lit "Dedications"] (lit "a.epub")).
Proof. split; by vm_compute. Qed.


(** * Further properties *)

(** ** [json_to_folder.py]: what the texts read, what is overwritten *)

Section JsonFurther.

Import JsonToFolder JsonToFolderMain.

Lemma verse_lines_cons (key : str) (verse : gmap str str)
    (verses : list (gmap str str)) :
  verse_lines key (verse :: verses) =
  match verse !! key with
  | Some (c :: v) => (c :: v) ++ newline
  | _ => []
  end ++ verse_lines key verses.
Proof. reflexivity. Qed.

Lemma verse_lines_only_key (key : str) (verses : list (gmap str str)) :
  verse_lines key (map (only_key key) verses) = verse_lines key verses.
Proof.
  induction verses as [|verse verses IH]; [done|].
  cbn [map]. rewrite !verse_lines_cons, IH. f_equal.
  unfold only_key. destruct (verse !! key) as [v|] eqn:E.
  - by rewrite lookup_insert_eq.
  - by rewrite lookup_empty.
Qed.

Lemma verse_lines_other_key (key other : str)
    (verses : list (gmap str str)) :
  key <> other -> verse_lines key (map (only_key other) verses) = [].
Proof.
  intros Hne. induction verses as [|verse verses IH]; [done|].
  cbn [map]. rewrite verse_lines_cons, IH, app_nil_r.
  unfold only_key. destruct (verse !! other) as [v|].
  - rewrite lookup_insert_ne by done. by rewrite lookup_empty.
  - by rewrite lookup_empty.
Qed.

(** X1. bo.txt is made of the title and of the 'bo' values alone, en.txt of
    the title and of the 'en' values alone: the text is the one of the
    record whose verses are cut down to that key.  What a verse holds under
    'en-trans' or under the other language is never written: the record cut
    down to 'en-trans' gives the title line and nothing else. *)
Theorem texts_read_one_key (data : Data) (t : str) :
  get_bo_text data t = get_bo_text (only_language (lit "bo") data) t
  /\ get_en_text data t = get_en_text (only_language (lit "en") data) t
  /\ get_bo_text (only_language (lit "en") data) t = t ++ newline
  /\ get_en_text (only_language (lit "bo") data) t = t ++ newline
  /\ get_bo_text (only_language (lit "en-trans") data) t = t ++ newline
  /\ get_en_text (only_language (lit "en-trans") data) t = t ++ newline.
Proof.
  rewrite !get_bo_text_lines, !get_en_text_lines. cbn [text only_language].
  rewrite !verse_lines_only_key.
  rewrite !verse_lines_other_key by (intros E; vm_compute in E; discriminate).
  by rewrite !app_nil_r.
Qed.

Lemma json_to_folder_some (data : Data) (output_dir : list str)
    (fs : gmap (list str * str) str) :
  has_titles data = true ->
  json_to_folder data output_dir fs =
  Some (create_folder output_dir (bo_title data)
          (get_bo_text data (bo_title data))
          (get_en_text data (en_title data)) fs).
Proof.
  unfold has_titles, json_to_folder, bo_title, en_title.
  rewrite andb_true_iff, !bool_decide_eq_true. intros [[tb Hb] [te He]].
  unfold str in *. rewrite Hb. cbn [mbind option_bind default].
  rewrite He. reflexivity.
Qed.

Lemma json_to_folder_none (data : Data) (output_dir : list str)
    (fs : gmap (list str * str) str) :
  has_titles data = false -> json_to_folder data output_dir fs = None.
Proof.
  unfold has_titles, json_to_folder.
  rewrite andb_false_iff, !bool_decide_eq_false, <- !eq_None_not_Some.
  intros [Hb|He].
  - rewrite Hb. reflexivity.
  - destruct (title data !! lit "bo"); [|reflexivity].
    cbn [mbind option_bind]. rewrite He. reflexivity.
Qed.

(** X2. Running the transform a second time on the same record changes
    nothing: the two files are written over with the same text. *)
Theorem json_to_folder_twice (data : Data) (output_dir : list str)
    (fs fs1 : gmap (list str * str) str) :
  json_to_folder data output_dir fs = Some fs1 ->
  json_to_folder data output_dir fs1 = Some fs1.
Proof.
  destruct (has_titles data) eqn:Ht.
  - rewrite !(json_to_folder_some _ _ _ Ht). intros [= <-]. f_equal.
    unfold create_folder. apply map_eq. intros p.
    destruct (decide (p = (output_dir ++ [bo_title data], lit "en.txt")))
      as [->|Hen]; [by rewrite !lookup_insert_eq|].
    destruct (decide (p = (output_dir ++ [bo_title data], lit "bo.txt")))
      as [->|Hbo].
    + rewrite !(lookup_insert_ne _ (_, lit "en.txt")) by done.
      by rewrite !lookup_insert_eq.
    + by rewrite !lookup_insert_ne.
  - by rewrite (json_to_folder_none _ _ _ Ht).
Qed.

Lemma json_to_folder_twice_witness :
  exists fs1,
    json_to_folder scenario_record OUTPUT_DIR ∅ = Some fs1
    /\ json_to_folder scenario_record OUTPUT_DIR fs1 = Some fs1.
Proof.
  eexists. split; [reflexivity|].
  by apply (json_to_folder_twice scenario_record OUTPUT_DIR ∅).
Defined.

(** X3. Two records with the same Tibetan title share a folder, and the
    transform has no care for that: after the second record the files are
    exactly what the second record alone would have left; nothing of the
    first record's text remains. *)
Theorem same_title_overwrites (first second : Data) (output_dir : list str)
    (fs fs1 : gmap (list str * str) str) :
  title first !! lit "bo" = title second !! lit "bo" ->
  json_to_folder first output_dir fs = Some fs1 ->
  json_to_folder second output_dir fs1 = json_to_folder second output_dir fs.
Proof.
  intros Hsame Hfirst.
  destruct (has_titles first) eqn:Ht1;
    [|by rewrite (json_to_folder_none _ _ _ Ht1) in Hfirst].
  rewrite (json_to_folder_some _ _ _ Ht1) in Hfirst. injection Hfirst as <-.
  destruct (has_titles second) eqn:Ht2;
    [|by rewrite !(json_to_folder_none _ _ _ Ht2)].
  rewrite !(json_to_folder_some _ _ _ Ht2). f_equal.
  assert (Hfolder : bo_title first = bo_title second).
  { unfold bo_title. unfold str in *. by rewrite Hsame. }
  unfold create_folder. rewrite Hfolder. apply map_eq. intros p.
  destruct (decide (p = (output_dir ++ [bo_title second], lit "en.txt")))
    as [->|Hen]; [by rewrite !lookup_insert_eq|].
  destruct (decide (p = (output_dir ++ [bo_title second], lit "bo.txt")))
    as [->|Hbo].
  - rewrite !(lookup_insert_ne _ (_, lit "en.txt")) by done.
    by rewrite !lookup_insert_eq.
  - by rewrite !lookup_insert_ne.
Qed.

Lemma same_title_overwrites_witness :
  exists fs1 fs2,
    json_to_folder scenario_record OUTPUT_DIR ∅ = Some fs1
    /\ json_to_folder scenario_record_2 OUTPUT_DIR fs1 = Some fs2
    /\ json_to_folder scenario_record_2 OUTPUT_DIR ∅ = Some fs2
    /\ fs2 !! (OUTPUT_DIR ++ [lit "T"], lit "bo.txt")
       = Some (lit "T" ++ newline ++ lit "d" ++ newline).
Proof.
  eexists _, _. split; [reflexivity|].
  assert (Hsecond : json_to_folder scenario_record_2 OUTPUT_DIR ∅
                    = Some (create_folder OUTPUT_DIR (lit "T")
                              (get_bo_text scenario_record_2 (lit "T"))
                              (get_en_text scenario_record_2 (lit "F")) ∅))
    by reflexivity.
  split; [|split; [exact Hsecond|by vm_compute]].
  rewrite <- Hsecond.
  by apply (same_title_overwrites scenario_record scenario_record_2 OUTPUT_DIR ∅).
Defined.

Lemma main_cons (accepted : Data -> bool) (data : Data)
    (records : list Data) (fs : gmap (list str * str) str) :
  main accepted (data :: records) fs =
  match json_to_folder data OUTPUT_DIR fs with
  | Some fs' => if accepted data then main accepted records fs' else OSError
  | None => KeyError fs
  end.
Proof. reflexivity. Qed.

(** The batch over a list that begins with records that go through. *)
Lemma main_app (accepted : Data -> bool) (good rest : list Data)
    (fs fsg : gmap (list str * str) str) :
  main accepted good fs = Completed fsg ->
  main accepted (good ++ rest) fs = main accepted rest fsg.
Proof.
  revert fs. induction good as [|d good IH]; intros fs; cbn [app].
  - by intros [= <-].
  - rewrite !main_cons. destruct (json_to_folder d OUTPUT_DIR fs); [|done].
    destruct (accepted d); [|done]. apply IH.
Qed.

Lemma main_completes (accepted : Data -> bool) (records : list Data)
    (fs : gmap (list str * str) str) :
  Forall (fun d => goes_in accepted d = true) records ->
  exists fs', main accepted records fs = Completed fs'.
Proof.
  intros Hall. revert fs. induction Hall as [|d records Hd _ IH]; intros fs.
  - by exists fs.
  - unfold goes_in in Hd. apply andb_true_iff in Hd as [Ht Ha].
    rewrite main_cons, (json_to_folder_some _ _ _ Ht), Ha. apply IH.
Qed.

(** X4. The batch has no [try]: over records of the shape that the
    transform reads, it runs to its end exactly when every record has a
    Tibetan and an English title and the operating system takes its folder
    and its two files.  The first record that lacks a
    title ends the batch with a [KeyError]: the records before it are
    written, that record and all the records after it are not.  A record
    that the system refuses ends the batch too. *)
Theorem main_stops_at_first_record_without_title (accepted : Data -> bool)
    (records : list Data) (fs : gmap (list str * str) str) :
  ((exists fs', main accepted records fs = Completed fs')
   <-> Forall (fun d => goes_in accepted d = true) records)
  /\ (forall good bad rest fsg,
        records = good ++ bad :: rest ->
        main accepted good fs = Completed fsg ->
        has_titles bad = false ->
        main accepted records fs = KeyError fsg)
  /\ (forall good bad rest fsg,
        records = good ++ bad :: rest ->
        main accepted good fs = Completed fsg ->
        has_titles bad = true -> accepted bad = false ->
        main accepted records fs = OSError).
Proof.
  split; [split|split].
  - revert fs. induction records as [|d records IH]; intros fs [fs' Hrun];
      [constructor|].
    rewrite main_cons in Hrun.
    destruct (has_titles d) eqn:Hd.
    + rewrite (json_to_folder_some _ _ _ Hd) in Hrun.
      destruct (accepted d) eqn:Ha; [|done].
      constructor; [unfold goes_in; by rewrite Hd, Ha|].
      apply (IH _ (ex_intro _ fs' Hrun)).
    + by rewrite (json_to_folder_none _ _ _ Hd) in Hrun.
  - apply main_completes.
  - intros good bad rest fsg -> Hgood Hbad.
    rewrite (main_app _ _ _ _ _ Hgood).
    by rewrite main_cons, (json_to_folder_none _ _ _ Hbad).
  - intros good bad rest fsg -> Hgood Hbad Hrefused.
    rewrite (main_app _ _ _ _ _ Hgood).
    by rewrite main_cons, (json_to_folder_some _ _ _ Hbad), Hrefused.
Qed.

Lemma main_stops_witness :
  exists fsg,
    main (fun _ => true) [scenario_record] ∅ = Completed fsg
    /\ main (fun _ => true)
         [scenario_record; record_without_en; scenario_record_3] ∅
       = KeyError fsg
    /\ fsg !! (OUTPUT_DIR ++ [lit "U"], lit "en.txt") = None.
Proof.
  destruct (main_stops_at_first_record_without_title (fun _ => true)
              [scenario_record; record_without_en; scenario_record_3] ∅)
    as (_ & Hstop & _).
  eexists. split; [reflexivity|]. split; [|by vm_compute].
  apply (Hstop [scenario_record] record_without_en [scenario_record_3]);
    reflexivity.
Defined.

(** The batch leaves alone the folders of titles that no record has. *)
Lemma main_other_folders (accepted : Data -> bool) (records : list Data)
    (t f : str) (fs fs' : gmap (list str * str) str) :
  Forall (fun d => bo_title d <> t) records ->
  main accepted records fs = Completed fs' ->
  fs' !! (OUTPUT_DIR ++ [t], f) = fs !! (OUTPUT_DIR ++ [t], f).
Proof.
  intros Hother. revert fs. induction Hother as [|d records Hd _ IH]; intros fs.
  { by intros [= <-]. }
  rewrite main_cons. destruct (has_titles d) eqn:Ht.
  - rewrite (json_to_folder_some _ _ _ Ht). destruct (accepted d); [|done].
    intros Hrun. rewrite (IH _ Hrun). unfold create_folder.
    rewrite !lookup_insert_ne; [done| |]; by intros [=].
  - by rewrite (json_to_folder_none _ _ _ Ht).
Qed.

(** X5. When all the records have both titles, the operating system takes
    the folder and the files of each, and their Tibetan titles are plain
    folder names, no two the same, the batch comes to its end and leaves
    for every record its own two files: bo.txt and en.txt in the folder of
    its Tibetan title, with the texts of that record.  (A title that is not
    a plain name, such as one that ends in a slash, is another spelling of a
    folder that a different title can name as well.) *)
Theorem main_writes_every_record (accepted : Data -> bool)
    (records : list Data) (fs : gmap (list str * str) str) :
  Forall (fun d => goes_in accepted d = true) records ->
  Forall (fun d => plain_name (bo_title d) = true) records ->
  NoDup (map bo_title records) ->
  exists fs',
    main accepted records fs = Completed fs'
    /\ forall d, d ∈ records ->
         fs' !! (OUTPUT_DIR ++ [bo_title d], lit "bo.txt")
           = Some (get_bo_text d (bo_title d))
         /\ fs' !! (OUTPUT_DIR ++ [bo_title d], lit "en.txt")
            = Some (get_en_text d (en_title d)).
Proof.
  intros Hgo _ Hnd.
  destruct (main_completes accepted records fs Hgo) as [fs' Hrun].
  exists fs'. split; [done|].
  revert fs Hnd Hrun. induction Hgo as [|d0 records Hd0 _ IH];
    intros fs Hnd Hrun d Hd; [by apply elem_of_nil in Hd|].
  cbn [map] in Hnd. apply NoDup_cons in Hnd as [Hfresh Hnd].
  unfold goes_in in Hd0. apply andb_true_iff in Hd0 as [Ht0 Ha0].
  rewrite main_cons, (json_to_folder_some _ _ _ Ht0), Ha0 in Hrun.
  apply elem_of_cons in Hd as [->|Hd]; [|by eapply IH].
  assert (Hothers : Forall (fun d => bo_title d <> bo_title d0) records).
  { apply Forall_forall. intros d' Hd' E. apply Hfresh.
    rewrite <- E. apply list_elem_of_fmap. by exists d'. }
  rewrite !(main_other_folders _ _ _ _ _ _ Hothers Hrun).
  unfold create_folder. split.
  - rewrite lookup_insert_ne by (intros [=E]; vm_compute in E; discriminate).
    by rewrite lookup_insert_eq.
  - by rewrite lookup_insert_eq.
Qed.

Lemma main_writes_every_record_witness :
  exists fs',
    main (fun _ => true) [scenario_record; scenario_record_3] ∅
      = Completed fs'
    /\ fs' !! (OUTPUT_DIR ++ [lit "T"], lit "bo.txt")
       = Some (lit "T" ++ newline ++ lit "a" ++ newline ++ lit "c" ++ newline)
    /\ fs' !! (OUTPUT_DIR ++ [lit "U"], lit "en.txt")
       = Some (lit "G" ++ newline ++ lit "e" ++ newline).
Proof.
  destruct (main_writes_every_record (fun _ => true)
              [scenario_record; scenario_record_3] ∅)
    as (fs' & Hrun & Hfiles).
  { by repeat constructor. }
  { by repeat constructor. }
  { apply (bool_decide_unpack _). by vm_compute. }
  exists fs'. split; [exact Hrun|]. split.
  - destruct (Hfiles scenario_record) as [Hbo _]; [apply list_elem_of_here|].
    exact Hbo.
  - destruct (Hfiles scenario_record_3) as [_ Hen].
    { apply list_elem_of_further, list_elem_of_here. }
    exact Hen.
Defined.

End JsonFurther.

(** ** [scrap.py]: link collection and the run that follows it *)

Section CollectFurther.

Context `{PyLib}.

Lemma collect_text_links_collected (base_url : str) (details : list Details) :
  _collect_text_links base_url details
  = Spec.collected (pairs_read base_url details).
Proof.
  unfold _collect_text_links. rewrite collect_details_pairs.
  pose proof (fold_record_recorded (pairs_read base_url details)) as Hrec.
  destruct (fold_left _ (pairs_read base_url details) _) as [m order].
  destruct Hrec as [Ho Hm]; cbn in Ho, Hm. subst order.
  unfold Spec.collected. apply map_ext_in. intros u Hu.
  apply list_elem_of_In in Hu. rewrite first_seen_elem in Hu.
  f_equal. rewrite lookup_total_alt, Hm.
  by rewrite bool_decide_eq_true_2.
Qed.

(** The labels of a URL begin with the label of its first appearance. *)
Lemma labels_of_first (u : str) (pairs : list (str * str)) :
  u ∈ map snd pairs ->
  exists before s after,
    pairs = before ++ (s, u) :: after
    /\ (u ∉ map snd before)
    /\ Spec.labels_of u pairs = s :: Spec.labels_of u after.
Proof.
  induction pairs as [|[s v] pairs IH]; cbn; [by intros ?%elem_of_nil|].
  destruct (decide (v = u)) as [->|Hne].
  - intros _. exists [], s, pairs. split; [done|]. split; [apply not_elem_of_nil|].
    unfold Spec.labels_of. cbn. by rewrite bool_decide_eq_true_2.
  - intros [?|Hin]%elem_of_cons; [congruence|].
    destruct (IH Hin) as (before & s' & after & -> & Hfresh & Hlabels).
    exists ((s, v) :: before), s', after. split; [done|]. split.
    + cbn. rewrite not_elem_of_cons. split; [congruence|done].
    + unfold Spec.labels_of in *. cbn.
      by rewrite bool_decide_eq_false_2.
Qed.

(** X6. Every collected link has at least one topic, and its first topic,
    the one that names the folder the file is moved to, is the summary of
    the section in which the URL appears first on the page. *)
Theorem collected_links_have_a_first_topic (base_url : str)
    (details : list Details) :
  Forall
    (fun link =>
       exists before s after labels,
         pairs_read base_url details = before ++ (s, link.1) :: after
         /\ (link.1 ∉ map snd before)
         /\ link.2 = s :: labels)
    (_collect_text_links base_url details).
Proof.
  rewrite collect_text_links_collected. unfold Spec.collected.
  apply Forall_forall. intros link Hlink.
  apply list_elem_of_In, in_map_iff in Hlink as (u & <- & Hu).
  apply list_elem_of_In in Hu. rewrite first_seen_elem in Hu.
  destruct (labels_of_first u _ Hu) as (before & s & after & Hsplit & Hfresh & Hl).
  exists before, s, after. cbn [fst snd]. rewrite Hl. cbn [Spec.first_seen].
  eexists. done.
Qed.

Lemma collected_links_have_topics (base_url : str) (details : list Details) :
  List.filter has_topics (_collect_text_links base_url details)
  = _collect_text_links base_url details
  /\ List.filter (fun it => negb (has_topics it))
       (_collect_text_links base_url details) = [].
Proof.
  pose proof (collected_links_have_a_first_topic base_url details) as Hall.
  induction Hall as [|[u labels] links Hlink _ [IH1 IH2]]; [done|].
  destruct Hlink as (_ & s & _ & rest & _ & _ & Hlabels). cbn in Hlabels.
  subst labels. cbn. by rewrite IH1, IH2.
Qed.

(** X7. A run of [scrape_all] that comes to its end has visited the page of
    every URL of the landing page once, in the order of first appearance,
    and has none of its documents skipped for want of a topic: [total] is
    the number of distinct URLs and every one of them went through the
    orchestration. *)
Theorem scrape_all_visits_each_document_once (site : str -> PageEnv)
    (base_url : str) (details : list Details) (w w' : World) (st' : Stats) :
  scrape_all site base_url details w = Return (st', w') ->
  let urls := Spec.first_seen (map snd (pairs_read base_url details)) in
  visited (events w') = visited (events w) ++ urls
  /\ NoDup urls
  /\ total st' = length urls
  /\ (success st' + failed st' = length urls)%nat.
Proof.
  intros Hrun urls. unfold scrape_all, run_all in Hrun.
  apply run_items_counted in Hrun as (Ht & Hsum & _ & Hv).
  destruct (collected_links_have_topics base_url details) as [Hall _].
  rewrite Hall in Hv. cbn in Ht, Hsum.
  assert (Hurls : map fst (_collect_text_links base_url details) = urls).
  { rewrite collect_text_links_collected. unfold Spec.collected.
    rewrite map_map. cbn. apply map_id. }
  rewrite Hurls in Hv.
  assert (Hlen : length urls = length (_collect_text_links base_url details)).
  { by rewrite <- Hurls, length_map. }
  split; [done|]. split; [apply first_seen_NoDup|]. rewrite Hlen.
  split; [done|lia].
Qed.

End CollectFurther.

Lemma scrape_all_visits_witness :
  exists st' w',
    @scrape_all py_fragment scenario_site scenario_base scenario_page empty_world
      = Return (st', w')
    /\ visited (events w') = [url_A; url_B]
    /\ total st' = 2%nat.
Proof.
  set (r := result_of (@scrape_all py_fragment scenario_site scenario_base
                         scenario_page) empty_world no_stats).
  assert (Hrun : @scrape_all py_fragment scenario_site scenario_base
                   scenario_page empty_world = Return (r.1, r.2))
    by (vm_compute; reflexivity).
  exists r.1, r.2. split; [exact Hrun|].
  destruct (@scrape_all_visits_each_document_once py_fragment scenario_site
              scenario_base scenario_page empty_world r.2 r.1 Hrun)
    as (Hv & _ & Ht & _).
  split; [exact Hv|exact Ht].
Defined.

(** ** [scrap.py]: the completion poller, further *)

Section PollerFurther.

Context `{PyLib}.

Lemma max_by_key_greatest (best : Path * Z) (l : list (Path * Z)) :
  exists k, (max_by_key best l, k) ∈ best :: l
            /\ forall pk, pk ∈ best :: l -> (pk.2 <= k)%Z.
Proof.
  revert best. induction l as [|pk l IH]; intros best; cbn.
  - exists best.2. destruct best as [p k]. split; [apply list_elem_of_here|].
    intros pk ->%list_elem_of_singleton. done.
  - destruct (best.2 <? pk.2)%Z eqn:E.
    + apply Z.ltb_lt in E. destruct (IH pk) as (k & Hin & Hmax).
      exists k. split; [by apply list_elem_of_further|].
      intros x [->|Hx]%elem_of_cons; [|by apply Hmax].
      specialize (Hmax pk (list_elem_of_here _ _)). lia.
    + apply Z.ltb_ge in E. destruct (IH best) as (k & Hin & Hmax).
      exists k. split.
      * apply elem_of_cons in Hin as [->|Hin]; [apply list_elem_of_here|].
        by do 2 apply list_elem_of_further.
      * intros x [->|[->|Hx]%elem_of_cons]%elem_of_cons.
        -- apply Hmax, list_elem_of_here.
        -- specialize (Hmax best (list_elem_of_here _ _)). lia.
        -- by apply Hmax, list_elem_of_further.
Qed.

Lemma keyed (mtime : Path -> option Z) (l : list Path) (keys : list (Path * Z)) :
  Forall2 (fun p pk => (k ← mtime p; Some (p, k)) = Some pk) l keys ->
  (forall pk, pk ∈ keys -> mtime pk.1 = Some pk.2)
  /\ forall q, q ∈ l -> exists tq, mtime q = Some tq /\ (q, tq) ∈ keys.
Proof.
  induction 1 as [|p pk l keys Hp _ [IH1 IH2]].
  - split; intros x Hx; by apply elem_of_nil in Hx.
  - destruct (mtime p) as [k|] eqn:E; [|done]. injection Hp as <-.
    split.
    + intros x [->|Hx]%elem_of_cons; [done|by apply IH1].
    + intros q [->|Hq]%elem_of_cons.
      * exists k. split; [done|apply list_elem_of_here].
      * destruct (IH2 q Hq) as (tq & Hq' & Hin).
        exists tq. split; [done|by apply list_elem_of_further].
Qed.

Lemma max_mtime_greatest (mtime : Path -> option Z) (epubs : list Path)
    (target : Path) :
  max_mtime mtime epubs = Some target ->
  exists t, mtime target = Some t
            /\ forall q, q ∈ epubs ->
                 exists tq, mtime q = Some tq /\ (tq <= t)%Z.
Proof.
  unfold max_mtime. destruct (mapM _ epubs) as [[|pk pks]|] eqn:E; [done| |done].
  intros [= <-]. apply mapM_Some_1, keyed in E as [Hkeys Hall].
  destruct (max_by_key_greatest pk pks) as (k & Hin & Hmax).
  exists k. split; [exact (Hkeys _ Hin)|].
  intros q Hq. destruct (Hall q Hq) as (tq & Hq' & Hin').
  exists tq. split; [done|]. exact (Hmax _ Hin').
Qed.

Lemma new_epubs_elem (before_set : gset Path) (o : Poll) (q : Path) :
  q ∈ new_epubs before_set o <->
  q ∈ listing o /\ (q ∉ before_set) /\ lower (suffix q) = lit ".epub".
Proof.
  unfold new_epubs, new_files.
  rewrite list_elem_of_In, !filter_In, <- list_elem_of_In.
  rewrite has_suffix_true, bool_decide_eq_true. tauto.
Qed.

(** X8. The file that the poller returns is the most recently modified of
    the new ".epub" files of the pass that returned it: every other one has
    a modification time that is not later. *)
Theorem wait_for_download_returns_the_latest (before_set : gset Path)
    (timeout : Z) (polls : list Poll) (target : Path) :
  _wait_for_download before_set timeout polls = Return (Some target) ->
  exists o t,
    o ∈ polls
    /\ target ∈ new_epubs before_set o
    /\ st_mtime o target = Some t
    /\ forall q, q ∈ listing o -> q ∉ before_set ->
         lower (suffix q) = lit ".epub" ->
         exists tq, st_mtime o q = Some tq /\ (tq <= t)%Z.
Proof.
  induction polls as [|o polls IH]; [done|].
  rewrite wait_for_download_pass; cbv zeta.
  assert (Hlater : _wait_for_download before_set timeout polls
                   = Return (Some target) ->
                   exists o' t,
                     o' ∈ o :: polls
                     /\ target ∈ new_epubs before_set o'
                     /\ st_mtime o' target = Some t
                     /\ forall q, q ∈ listing o' -> q ∉ before_set ->
                          lower (suffix q) = lit ".epub" ->
                          exists tq, st_mtime o' q = Some tq /\ (tq <= t)%Z).
  { intros Hr. destruct (IH Hr) as (o' & t & Hin & Hrest).
    exists o', t. split; [by apply list_elem_of_further|done]. }
  destruct (clock o <? timeout)%Z; [|done].
  destruct (ready before_set o); [|done].
  fold (new_epubs before_set o).
  destruct (max_mtime _ _) as [t0|] eqn:Hmax; [|done].
  destruct (st_size1 o t0); [|done].
  destruct (still_exists o t0); [|done].
  destruct (st_size2 o t0); [|done].
  destruct (_ =? _)%Z; [|done].
  intros [= <-].
  pose proof (max_mtime_elem _ _ _ Hmax) as Helem.
  destruct (max_mtime_greatest _ _ _ Hmax) as (t & Ht & Hall).
  exists o, t. split; [apply list_elem_of_here|]. split; [done|].
  split; [done|]. intros q Hq Hnew Hepub. apply Hall.
  by apply new_epubs_elem.
Qed.

(** X9. The modification times are read outside any [try]: when a new
    ".epub" file of a pass that is ready is gone by the time [max] asks for
    its modification time, the [FileNotFoundError] leaves the poller. *)
Theorem wait_for_download_raises_when_a_file_vanishes (before_set : gset Path)
    (timeout : Z) (pre post : list Poll) (o : Poll) (q : Path) :
  Forall (fun p => ready before_set p = false) pre ->
  Forall (fun p => (clock p < timeout)%Z) (pre ++ [o]) ->
  ready before_set o = true ->
  q ∈ listing o -> q ∉ before_set -> lower (suffix q) = lit ".epub" ->
  st_mtime o q = None ->
  _wait_for_download before_set timeout (pre ++ o :: post) = Raised.
Proof.
  intros Hpre Hclock Hready Hq Hnew Hepub Hgone.
  induction Hpre as [|p pre Hp _ IH]; cbn [app] in *;
    rewrite wait_for_download_pass; cbv zeta;
    apply Forall_cons in Hclock as [Hc Hclock];
    rewrite (proj2 (Z.ltb_lt _ _) Hc).
  - rewrite Hready. fold (new_epubs before_set o).
    assert (Hnone : max_mtime (st_mtime o) (new_epubs before_set o) = None).
    { unfold max_mtime. rewrite (mapM_None_2 _ (new_epubs before_set o)); [done|].
      apply Exists_exists. exists q. split; [by apply new_epubs_elem|].
      by rewrite Hgone. }
    by rewrite Hnone.
  - rewrite Hp. by apply IH.
Qed.

End PollerFurther.

Lemma wait_for_download_latest_witness :
  exists o t,
    o ∈ polls_complete
    /\ st_mtime o (sink "new.epub") = Some t
    /\ sink "new.epub" ∈ @new_epubs py_fragment {[ sink "old.epub" ]} o.
Proof.
  destruct (@wait_for_download_returns_the_latest py_fragment
              {[ sink "old.epub" ]} 120 polls_complete (sink "new.epub"))
    as (o & t & Hin & Hnew & Ht & _).
  { by vm_compute. }
  by exists o, t.
Defined.

Lemma wait_for_download_raises_witness :
  @_wait_for_download py_fragment {[ sink "old.epub" ]} 120 polls_vanished
  = Raised.
Proof.
  apply (@wait_for_download_raises_when_a_file_vanishes py_fragment
           {[ sink "old.epub" ]} 120
           [poll_at 0 ["old.epub"; "new.epub.crdownload"] []] []
           poll_vanished (sink "new.epub")).
  - by repeat constructor.
  - repeat constructor; by vm_compute.
  - by vm_compute.
  - apply (bool_decide_unpack _). by vm_compute.
  - apply (bool_decide_unpack _). by vm_compute.
  - by vm_compute.
  - by vm_compute.
Defined.

(** ** [scrap.py]: the uniqueness resolver, further *)

Section UniqueFurther.

Lemma rfind_None (c : N) (s : str) : c ∉ s -> rfind c s = None.
Proof.
  induction s as [|d s IH]; cbn; [done|].
  rewrite not_elem_of_cons. intros [Hne Hs]. rewrite (IH Hs).
  destruct (N.eqb_spec d c); [congruence|done].
Qed.

Lemma rfind_last (c : N) (a b : str) :
  c ∉ b -> rfind c (a ++ c :: b) = Some (length a).
Proof.
  intros Hb. induction a as [|d a IH]; cbn.
  - by rewrite (rfind_None c b Hb), N.eqb_refl.
  - by rewrite IH.
Qed.

Lemma rfind_Some (c : N) (s : str) (i : nat) :
  rfind c s = Some i ->
  s = take i s ++ c :: drop (S i) s /\ (c ∉ drop (S i) s).
Proof.
  revert i. induction s as [|d s IH]; intros i; cbn; [done|].
  destruct (rfind c s) as [j|] eqn:E.
  - intros [= <-]. destruct (IH j eq_refl) as [Hs Hrest]. cbn.
    split; [by rewrite <- Hs|done].
  - destruct (N.eqb_spec d c) as [->|]; [|done]. intros [= <-]. cbn.
    split; [by rewrite drop_0|]. rewrite drop_0.
    intros Hin. clear IH. induction s as [|e s IHs]; [by apply elem_of_nil in Hin|].
    cbn in E. destruct (rfind c s); [done|].
    destruct (N.eqb_spec e c); [done|].
    apply elem_of_cons in Hin as [->|Hin]; [done|by apply IHs].
Qed.

(** A path with an extension: where its last dot is. *)
Lemma suffix_nonempty (path : Path) :
  suffix path <> [] ->
  exists s e,
    name path = s ++ 0x2E :: e /\ s <> [] /\ e <> [] /\ (0x2E ∉ e)
    /\ stem path = s /\ suffix path = 0x2E :: e.
Proof.
  unfold suffix, stem. destruct (rfind 0x2E (name path)) as [i|] eqn:E; [|done].
  destruct ((0 <? i)%nat && (i <? length (name path) - 1)%nat) eqn:C; [|done].
  intros _. apply andb_true_iff in C as [Hi Hlen].
  apply Nat.ltb_lt in Hi, Hlen.
  destruct (rfind_Some _ _ _ E) as [Hsplit Hrest].
  exists (take i (name path)), (drop (S i) (name path)).
  split; [done|]. split.
  { intros Htake. apply (f_equal length) in Htake.
    rewrite length_take in Htake. cbn in Htake. lia. }
  split.
  { intros Hdrop. apply (f_equal length) in Hdrop.
    rewrite length_drop in Hdrop. cbn in Hdrop. lia. }
  split; [done|]. split; [done|].
  rewrite Hsplit at 1. rewrite drop_app_length'; [done|].
  rewrite length_take. lia.
Qed.

Lemma suffix_of_name (parent_dirs : list str) (s e : str) :
  s <> [] -> e <> [] -> 0x2E ∉ e ->
  suffix (parent_dirs, s ++ 0x2E :: e) = 0x2E :: e
  /\ stem (parent_dirs, s ++ 0x2E :: e) = s.
Proof.
  intros Hs He Hdot. unfold suffix, stem, name. cbn [snd].
  rewrite (rfind_last _ _ _ Hdot).
  set (nm := s ++ 0x2E :: e).
  assert (Hcond : (0 <? length s)%nat && (length s <? length nm - 1)%nat = true).
  { apply andb_true_iff. unfold nm. rewrite !Nat.ltb_lt, length_app. cbn.
    destruct s; [done|]. destruct e; [done|]. cbn. lia. }
  rewrite Hcond. unfold nm. split.
  - by rewrite drop_app_length.
  - by rewrite take_app_length.
Qed.

Lemma candidate_keeps_suffix (path : Path) (n : nat) :
  suffix path <> [] ->
  suffix (candidate path n) = suffix path
  /\ stem (candidate path n)
     = stem path ++ lit " (" ++ str_of_nat n ++ lit ")".
Proof.
  intros Hsuffix.
  destruct (suffix_nonempty path Hsuffix)
    as (s & e & _ & Hs & He & Hdot & Hstem & Hsuf).
  unfold candidate, with_name. rewrite Hstem, Hsuf.
  replace (s ++ lit " (" ++ str_of_nat n ++ lit ")" ++ 0x2E :: e)
    with ((s ++ lit " (" ++ str_of_nat n ++ lit ")") ++ 0x2E :: e)
    by (by rewrite <- !app_assoc).
  apply suffix_of_name; [|done|done].
  by destruct s.
Qed.

(** X10. A file keeps its extension when it is renamed: for a path with an
    extension, what the resolver returns lies in the same folder and has
    the same extension, the number going in front of it. *)
Theorem unique_path_keeps_the_extension (w : World) (path p : Path) :
  suffix path <> [] ->
  _unique_path w path = Some p ->
  parent p = parent path /\ suffix p = suffix path
  /\ (p = path
      \/ exists n, stem p = stem path ++ lit " (" ++ str_of_nat n ++ lit ")").
Proof.
  intros Hsuffix. unfold _unique_path.
  destruct (exists_ w path); cbn [negb].
  - intros Hloop.
    apply unique_path_loop_some in Hloop as (k & _ & -> & _).
    destruct (candidate_keeps_suffix path (1 + k) Hsuffix) as [Hs Hstem].
    split; [done|]. split; [done|]. right. by exists (1 + k)%nat.
  - intros [= <-]. auto.
Qed.

Lemma unique_path_keeps_the_extension_witness :
  exists p,
    _unique_path crowded_world (joinpath [lit "Aspirations"] (lit "a.epub"))
      = Some p
    /\ suffix p = lit ".epub".
Proof.
  eexists. split; [by vm_compute|].
  destruct (unique_path_keeps_the_extension crowded_world
              (joinpath [lit "Aspirations"] (lit "a.epub"))
              (joinpath [lit "Aspirations"] (lit "a (2).epub")))
    as (_ & Hs & _).
  { by vm_compute. }
  { by vm_compute. }
  exact Hs.
Defined.






End UniqueFurther.

(** ** [scrap.py]: the orchestration and the run, further *)

Section OrchestrationFurther.

Context `{PyLib}.

(** X12.  When the orchestration returns [False] or [None] it has moved
    and copied nothing: the one event is the visit of the page, no file
    below a folder is touched, and every file that was there is as it was.
    With [False] no file is changed at all; with [None] the only new files
    are those that the browser has left in the output directory.  It returns
    [False] exactly when the EPUB control is missing or the click fails,
    hence [None] exactly when the control worked and no file came back. *)
Theorem orchestration_without_file_changes_nothing (env : PageEnv)
    (url : str) (subfolder : option str) (r : Returned) (w w' : World) :
  _download_epub_from_text_page env url subfolder w = Return (r, w') ->
  (forall final_path, r <> RPath final_path) ->
  (r = RFalse <-> control_works env = false)
  /\ (r = RNone <-> control_works env = true)
  /\ events w' = events w ++ [Visit url]
  /\ (r = RFalse -> files w' = files w)
  /\ (forall p, parent p <> [] -> files w' !! p = files w !! p)
  /\ (forall p c, files w !! p = Some c -> files w' !! p = Some c)
  /\ (forall p c, files w' !! p = Some c ->
        files w !! p = Some c
        \/ exists n, p = joinpath [] n /\ (n, c) ∈ left_behind env).
Proof.
  intros Hrun Hr. apply orchestration_ensures in Hrun.
  destruct r as [final_path| |]; [by destruct (Hr final_path)| |].
  - destruct Hrun as [Hcontrol ->]. rewrite Hcontrol. cbn [files events log].
    repeat split; try done. intros p c Hp. by left.
  - destruct Hrun as (Hcontrol & _ & _ & ->). rewrite Hcontrol.
    split; [done|]. split; [done|]. split; [done|]. split; [done|].
    split; [intros p Hp; by rewrite leave_folder|].
    split; [intros p c Hp; by apply leave_keeps|].
    intros p c Hp. by apply leave_new in Hp.
Qed.


(** One document of the loop, whatever becomes of it: no file that was
    there is changed. *)
Lemma process_item_keeps (site : str -> PageEnv) (st : Stats)
    (item : str * list str) (w : World) :
  ensures (process_item site st item) w (fun _ w' => keeps w w').
Proof.
  destruct item as [url [|primary extras]]; cbn [process_item].
  { apply ensures_ret, keeps_refl. }
  apply ensures_bind.
  apply (ensures_weaken _ _ _ _ (orchestration_ensures _ url _ w)).
  intros r w1 Horch. destruct r as [final_path| |].
  - destruct Horch as (_ & n & data & _ & mv & lang & tib & _ & _ & Hfinal
                       & _ & _ & _ & Hkeep).
    apply ensures_bind.
    apply (ensures_weaken _ _ _ _
             (copies_to_extras_keep _ final_path data extras w1 Hfinal)).
    intros _ w2 [Hkeep2 _]. apply ensures_ret.
    exact (keeps_trans _ _ _ Hkeep Hkeep2).
  - destruct Horch as [_ ->]. apply ensures_ret. by intros p c.
  - destruct Horch as (_ & _ & _ & ->). apply ensures_ret.
    intros p c Hp. by apply leave_keeps.
Qed.

(** X13.  A run that comes to its end has changed no file that was below
    the output directory before: the browser saves under names that are
    free, every move and copy goes to a path that [_unique_path] found
    free, and so, whatever was downloaded, moved and copied, and whichever
    of these calls were refused, every earlier file is there with the
    contents it had. *)
Theorem run_keeps_what_was_there (site : str -> PageEnv)
    (items : list (str * list str)) (w w' : World) (st' : Stats) :
  run_all site items w = Return (st', w') ->
  forall p c, files w !! p = Some c -> files w' !! p = Some c.
Proof.
  unfold run_all. generalize {| total := length items; success := 0%nat;
                                failed := 0%nat |}.
  revert w. induction items as [|item items IH]; intros w st; cbn [run_items].
  - by intros [= _ <-].
  - intros Hrun. apply bind_inv in Hrun as (st1 & w1 & Hitem & Hrun).
    apply process_item_keeps in Hitem. intros p c Hp.
    by apply (IH _ _ Hrun), Hitem.
Qed.


(** What the orchestration returns when a file arrives. *)
Lemma orchestration_with_file (env : PageEnv) (url n : str)
    (subfolder : option str) (data : bytes) (w : World) :
  get_raises env = false ->
  target_dir_raises env = false \/ subfolder = None \/ subfolder = Some [] ->
  control_works env = true ->
  download env = Some (n, data) -> files w !! joinpath [] n = None ->
  returns (_download_epub_from_text_page env url subfolder) w
    (fun r w' =>
       exists final_path,
         r = RPath final_path
         /\ placed env url subfolder w n data final_path w').
Proof.
  intros Hget Hdir Hcontrol Hdl Hfree.
  assert (Harr : arrives env w = Some (n, data)).
  { by rewrite arrives_lookup, Hdl, Hfree. }
  apply ensures_returns.
  { apply orchestration_returns; [done| |done]. right. by rewrite Harr. }
  apply (ensures_weaken _ _ _ _ (orchestration_ensures env url subfolder w)).
  intros r w' Horch. destruct r as [final_path| |].
  - destruct Horch as (_ & n' & data' & Harr' & Hplaced).
    rewrite Harr in Harr'. injection Harr' as <- <-. by exists final_path.
  - destruct Horch as [Hno _]. congruence.
  - destruct Horch as (_ & Hno & _). congruence.
Qed.


(** X16.  Without a topic, or with the empty string for one, the file is
    not moved: the method returns the path of the download in the output
    directory, where the file stays with its bytes; no earlier file is
    changed. *)
Theorem download_without_topic_stays (env : PageEnv) (url n : str)
    (subfolder : option str) (data : bytes) (w : World) :
  get_raises env = false ->
  subfolder = None \/ subfolder = Some [] ->
  control_works env = true ->
  download env = Some (n, data) -> files w !! joinpath [] n = None ->
  returns (_download_epub_from_text_page env url subfolder) w
    (fun r w' =>
       r = RPath (joinpath [] n)
       /\ files w' !! joinpath [] n = Some data
       /\ forall p c, files w !! p = Some c -> files w' !! p = Some c).
Proof.
  intros Hget Hsub Hcontrol Hdl Hfree.
  apply (returns_weaken _ _ _ _
           (orchestration_with_file env url n subfolder data w Hget
              ltac:(by right) Hcontrol Hdl Hfree)).
  intros r w' (final_path & -> & mv & lang & tib & _ & Hmv & Hfinal & _ & _
               & _ & Hkeep).
  assert (Hstays : final_path = joinpath [] n).
  { by destruct Hsub as [-> | ->]; destruct Hmv as [_ ->]. }
  subst final_path. done.
Qed.

(** X20.  A move that the operating system refuses does not make the
    document fail: the warning is logged, the file stays in the output
    directory under the name the browser gave it, with its bytes, and the
    document is counted as a success. *)
Theorem refused_move_is_still_a_success (site : str -> PageEnv) (st : Stats)
    (url primary n : str) (extras : list str) (data : bytes) (w : World) :
  primary <> [] ->
  unguarded_calls_return site (url, primary :: extras) = true ->
  control_works (site url) = true ->
  download (site url) = Some (n, data) -> files w !! joinpath [] n = None ->
  move_fails (site url) = true ->
  returns (process_item site st (url, primary :: extras)) w
    (fun st' w' =>
       success st' = (success st + 1)%nat /\ failed st' = failed st
       /\ files w' !! joinpath [] n = Some data).
Proof.
  intros Hprimary Hcalls Hcontrol Hdl Hfree Hrefused.
  apply ensures_returns; [by apply process_item_returns|].
  unfold unguarded_calls_return in Hcalls. cbn [fst snd tail] in Hcalls.
  apply andb_true_iff in Hcalls as [Hcalls _].
  apply andb_true_iff in Hcalls as [Hcalls Hdir].
  apply andb_true_iff in Hcalls as [Hget _].
  apply negb_true_iff in Hget, Hdir.
  cbn [process_item]. apply ensures_bind. apply returns_ensures.
  apply (returns_weaken _ _ _ _
           (orchestration_with_file (site url) url n (Some primary) data w
              Hget ltac:(by left) Hcontrol Hdl Hfree)).
  intros r w1 (final_path & -> & mv & lang & tib & _ & Hmv & Hfinal & _).
  destruct primary as [|c s]; [done|]. clear Hprimary.
  destruct Hmv as [_ Hmv]. rewrite Hrefused in Hmv. destruct Hmv as [_ ->].
  apply ensures_bind.
  apply (ensures_weaken _ _ _ _
           (copies_to_extras_keep _ (joinpath [] n) data extras w1 Hfinal)).
  intros _ w2 [_ Hfinal2]. apply ensures_ret. by cbn.
Qed.

End OrchestrationFurther.

Lemma orchestration_without_file_witness :
  exists r w',
    @_download_epub_from_text_page py_fragment timed_out url_B
      (Some (lit "Aspirations")) crowded_world = Return (r, w')
    /\ r = RNone
    /\ events w' = events crowded_world ++ [Visit url_B]
    /\ files w' !! joinpath [] (lit "a.epub.crdownload") = Some partial_bytes
    /\ forall p, parent p <> [] -> files w' !! p = files crowded_world !! p.
Proof.
  set (r := result_of (@_download_epub_from_text_page py_fragment timed_out
                         url_B (Some (lit "Aspirations")))
              crowded_world RFalse).
  assert (Hrun : @_download_epub_from_text_page py_fragment timed_out url_B
                   (Some (lit "Aspirations")) crowded_world
                 = Return (r.1, r.2)) by (vm_compute; reflexivity).
  exists r.1, r.2. split; [exact Hrun|].
  destruct (@orchestration_without_file_changes_nothing py_fragment timed_out
              url_B (Some (lit "Aspirations")) r.1 crowded_world r.2 Hrun)
    as (_ & Hnone & Hevents & _ & Hfolders & _).
  { intros final_path. vm_compute. discriminate. }
  split; [apply Hnone; vm_compute; reflexivity|].
  split; [exact Hevents|]. split; [vm_compute; reflexivity|exact Hfolders].
Defined.

Lemma run_keeps_what_was_there_witness :
  exists st' w',
    @run_all py_fragment scenario_site scenario_items crowded_world
      = Return (st', w')
    /\ files w' !! joinpath [lit "Aspirations"] (lit "a.epub")
       = Some epub_bytes
    /\ files w' !! joinpath [lit "Aspirations"] (lit "a (1).epub")
       = Some epub_bytes.
Proof.
  set (r := result_of (@run_all py_fragment scenario_site scenario_items)
              crowded_world no_stats).
  assert (Hrun : @run_all py_fragment scenario_site scenario_items
                   crowded_world = Return (r.1, r.2))
    by (vm_compute; reflexivity).
  exists r.1, r.2. split; [exact Hrun|].
  pose proof (@run_keeps_what_was_there py_fragment scenario_site
                scenario_items crowded_world r.2 r.1 Hrun) as Hkeep.
  split; apply Hkeep; vm_compute; reflexivity.
Defined.



Lemma download_without_topic_witness :
  returns
    (@_download_epub_from_text_page py_fragment (bilingual url_A) url_A
       (Some [])) crowded_world
    (fun r w' =>
       r = RPath (joinpath [] (lit "a.epub"))
       /\ files w' !! joinpath [] (lit "a.epub") = Some epub_bytes
       /\ forall p c, files crowded_world !! p = Some c
                      -> files w' !! p = Some c).
Proof.
  apply (@download_without_topic_stays py_fragment (bilingual url_A) url_A
           (lit "a.epub") (Some []) epub_bytes crowded_world);
    [vm_compute; reflexivity|by right|vm_compute; reflexivity..].
Defined.

Lemma refused_move_witness :
  returns
    (@process_item py_fragment (fun _ => move_refused) no_stats document_A)
    empty_world
    (fun st' w' =>
       success st' = 1%nat /\ failed st' = 0%nat
       /\ files w' !! joinpath [] (lit "a.epub") = Some epub_bytes).
Proof.
  apply (@refused_move_is_still_a_success py_fragment (fun _ => move_refused)
           no_stats url_A (lit "Dedications") (lit "a.epub")
           [lit "Aspirations"] epub_bytes empty_world);
    first [vm_compute; reflexivity | vm_compute; discriminate].
Defined.
(** ** [scrap.py]: the cookie banner *)

Section CookieBanner.

(** X17.  [_dismiss_cookie_banner] never raises, whatever the driver calls
    do, and does at most one thing to the page, and only to a banner that
    was found and is displayed: it clicks the Accept control when that is
    found and the click goes through; it clicks it by script when the click
    failed and the script goes through; it hides the banner by script
    exactly when the Accept control is not found, or both clicks failed,
    and the hiding script goes through. *)
Theorem dismiss_cookie_banner_never_raises (b : Banner) :
  exists actions,
    _dismiss_cookie_banner b = Return actions
    /\ (length actions <= 1)%nat
    /\ (actions <> [] ->
        banner_found b = true /\ banner_displayed b = Some true)
    /\ (ClickAccept ∈ actions <->
        banner_found b = true /\ banner_displayed b = Some true
        /\ accept_found b = true /\ accept_click b = true)
    /\ (ScriptClickAccept ∈ actions <->
        banner_found b = true /\ banner_displayed b = Some true
        /\ accept_found b = true /\ accept_click b = false
        /\ accept_script_click b = true)
    /\ (ScriptHide ∈ actions <->
        banner_found b = true /\ banner_displayed b = Some true
        /\ hide_script b = true
        /\ (accept_found b = false
            \/ accept_click b = false /\ accept_script_click b = false)).
Proof.
  destruct b as [[] [[]|] [] [] [] []];
    (eexists; split; [reflexivity|]);
    cbn [banner_found banner_displayed accept_found accept_click
         accept_script_click hide_script length];
    (split; [lia|]); (split; [by intros|]);
    repeat split; intros;
    repeat match goal with
           | H : _ /\ _ |- _ => destruct H
           | H : _ \/ _ |- _ => destruct H
           | H : _ |- _ => apply (proj1 (elem_of_nil _)) in H
           | H : _ |- _ => apply (proj1 (list_elem_of_singleton _ _)) in H
           end;
    try done; try (by left); try (by right);
    try (by apply list_elem_of_singleton).
Qed.

End CookieBanner.

(** ** [epub_to_zip.py]: the mirror of the EPUB tree *)

Section EpubToZipMirror.

Import EpubToZip.








End EpubToZipMirror.

